(** * SDICL: a shallow embedding of [SDICL.h]

    [SDICL.h] wraps device discovery, context/queue/program set-up of the
    OpenCL C++ bindings and a CPU-side pixel array that is shaded by a
    kernel and copied into an SDL streaming texture.

    The embedding follows the header top to bottom:
    - [getSemiIdealDevice]              (lines 16-36)
    - [readFile], [OCL] and [OCL::OCL]  (lines 38-87)
    - [SDL_ShaderTexture] and its member functions (lines 90-164)

    Integers of the C++ program are integers of [Z] with the wrap-around
    or the undefinedness of their type written out. The OpenCL C++
    bindings and SDL are not part of the header: their objects and calls
    are modelled after their documented behaviour, as far as the header
    uses them, and what the two runtimes answer (device enumeration, file
    contents, build status, kernel execution) is data of the model. *)

From Stdlib Require Import ZArith Lia.
From Stdlib.Strings Require Import Byte.
From stdpp Require Import base list gmap strings.

Open Scope Z_scope.

(** ** Machine integers *)

(** [cl_uint] and [unsigned int] are 32 bits wide; arithmetic on them wraps. *)
Definition UINT_MODULUS : Z := 2 ^ 32.
Definition wrap_uint (z : Z) : Z := z mod UINT_MODULUS.

(** [int] is 32 bits wide and signed. *)
Definition INT_MIN : Z := - 2 ^ 31.
Definition INT_MAX : Z := 2 ^ 31 - 1.
Definition in_int (z : Z) : bool := (INT_MIN <=? z) && (z <=? INT_MAX).

(** [size_t] is 64 bits wide; converting an [int] to it reduces modulo 2^64. *)
Definition SIZE_MODULUS : Z := 2 ^ 64.
Definition to_size_t (z : Z) : Z := z mod SIZE_MODULUS.

(** [sizeof(unsigned char)] and [sizeof(pixels[0])]. *)
Definition sizeof_uchar : Z := 1.

(** ** Outcomes of a call

    A call returns, ends the process through [exit], is left by a C++
    exception, or has undefined behaviour. *)

Inductive outcome (A : Type) : Type :=
| Returns (a : A)
| Exits (status : Z)
| Throws (what : string)
| Undefined.
Arguments Returns {A} a.
Arguments Exits {A} status.
Arguments Throws {A} what.
Arguments Undefined {A}.

#[global] Instance outcome_ret : MRet outcome := fun A a => Returns a.
#[global] Instance outcome_bind : MBind outcome := fun A B k m =>
  match m with
  | Returns a => k a
  | Exits status => Exits status
  | Throws what => Throws what
  | Undefined => Undefined
  end.

(** A product of two [int]: signed overflow is undefined behaviour. *)
Definition int_mul (a b : Z) : outcome Z :=
  if in_int (a * b) then Returns (a * b) else Undefined.

(** ** Device selection (lines 16-36) *)

(** A device as the runtime enumerates it: its handle and the two
    [cl_uint] values that [getInfo] answers for it. *)
Record cl_device := {
  device_id : positive;
  CL_DEVICE_MAX_COMPUTE_UNITS : Z;
  CL_DEVICE_MAX_CLOCK_FREQUENCY : Z
}.

(** [cl::Device]: a possibly null handle. [None] is the default-constructed
    [cl::Device]. *)
Definition Device : Type := option cl_device.

(** [cl::Platform]: what [getDevices(CL_DEVICE_TYPE_ALL, &devices)] stores
    into [devices]. *)
Definition Platform : Type := list cl_device.

(** [thisClock], line 27: a product of two [cl_uint] in [unsigned int]. *)
Definition score (d : cl_device) : Z :=
  wrap_uint (CL_DEVICE_MAX_COMPUTE_UNITS d * CL_DEVICE_MAX_CLOCK_FREQUENCY d).

(** The body of the inner loop, lines 27-32, on the pair
    [(bestDevice, maxClock)]. *)
Definition visit (acc : Device * Z) (d : cl_device) : Device * Z :=
  let '(bestDevice, maxClock) := acc in
  let thisClock := score d in
  if thisClock >? maxClock then (Some d, thisClock) else (bestDevice, maxClock).

(** The inner loop, lines 26-33. *)
Definition visit_platform (acc : Device * Z) (p : Platform) : Device * Z :=
  fold_left visit p acc.

Definition getSemiIdealDevice (platforms : list Platform) : Device :=
  let bestDevice : Device := None in
  let maxClock := 0 in
  fst (fold_left visit_platform platforms (bestDevice, maxClock)).

(** Platform-then-device enumeration order. *)
Definition enumerate (platforms : list Platform) : list cl_device :=
  concat platforms.

(** [d] is the first device of highest score in [l]. *)
Definition first_highest (l : list cl_device) (d : cl_device) : Prop :=
  exists before after,
    l = before ++ d :: after /\
    (forall x, x ∈ before -> score x < score d) /\
    (forall x, x ∈ after -> score x <= score d).

(** ** The OpenCL objects the header holds

    The model takes the runtime to accept every call it is given: handles
    are valid, and a kernel of the requested name exists in the program.
    The status codes that the header itself ignores are not modelled; the
    one it reads, that of [build], is. *)

Definition cl_int : Type := Z.
Definition CL_SUCCESS : cl_int := 0.
Definition CL_TRUE : bool := true.

(** A [cl_mem] handle. *)
Definition cl_mem : Type := positive.

(** The memory of the device: the byte at an offset of a memory object. *)
Definition DeviceMemory : Type := cl_mem -> nat -> byte.

(** [cl::Context]: its devices, the memory objects created in it (handles
    below [next_mem] are taken) and their contents. *)
Record Context := {
  ctx_devices : list Device;
  next_mem : cl_mem;
  memory : DeviceMemory
}.

Inductive cl_mem_flags := CL_MEM_READ_WRITE.

(** [cl::Buffer]: a handle and the size in bytes it was created with. *)
Record Buffer := {
  buf_mem : cl_mem;
  buf_flags : cl_mem_flags;
  buf_size : Z
}.

(** A value given to [setArg]. *)
Inductive KernelArg :=
| ArgMem (m : cl_mem)
| ArgInt (v : Z).

(** [cl::Kernel]: the function name it was created for and the arguments
    bound so far, by index. *)
Record Kernel := {
  kernel_name : string;
  kernel_args : gmap nat KernelArg
}.

(** [cl::Program]. *)
Record Program := {
  prog_context_devices : list Device;
  prog_sources : list string
}.

(** [cl::NullRange] and the one-dimensional [cl::NDRange(size_t)]. *)
Inductive NDRange :=
| NullRange
| NDRange1 (size0 : Z).

(** A command in a queue. *)
Inductive Command :=
| WriteBufferCmd (buffer : cl_mem) (offset : Z) (data : list byte)
| NDRangeKernelCmd (kernel : Kernel) (offset global local : NDRange)
| ReadBufferCmd (buffer : cl_mem) (offset size : Z).

(** A call on [cl::CommandQueue], with its arguments as written. *)
Inductive QueueCall :=
| EnqueueWriteBuffer (buffer : Buffer) (blocking : bool) (offset size : Z) (ptr : list byte)
| EnqueueNDRangeKernel (kernel : Kernel) (offset global local : NDRange)
| Finish
| EnqueueReadBuffer (buffer : Buffer) (blocking : bool) (offset size : Z).

(** A call as the queue's history keeps it: the call, and the commands
    it returned without waiting for (they need not have completed when
    it returned). *)
Record CallRecord := {
  call : QueueCall;
  pending_at_return : list Command
}.

(** [cl::CommandQueue], in order: the commands enqueued that no call has
    waited for yet, oldest first, and the history of the calls made on
    it. The memory of the device shows the effect of a command once a
    call has waited for it; nothing reads that memory earlier. *)
Record CommandQueue := {
  pending : list Command;
  history : list CallRecord
}.

(** ** What the two runtimes answer

    [platforms]: [cl::Platform::get] and [getDevices].
    [files]: the paths that can be opened, each with its contents or,
    for a path that opens and cannot be read (a directory), none; a path
    that is not there cannot be opened.
    [clBuildProgram]: the status of [program->build({device})].
    [CL_PROGRAM_BUILD_LOG]: the build log of a program for a device.
    [kernel_effect]: what running a kernel over a range does to the
    memory of the device.
    [uninitialised]: what device memory holds before anything is written. *)
Inductive File :=
| Contents (text : string)
| Unreadable.

Class Runtime := {
  platforms : list Platform;
  files : gmap string File;
  clBuildProgram : Program -> list Device -> cl_int;
  CL_PROGRAM_BUILD_LOG : Program -> Device -> string;
  kernel_effect : Kernel -> NDRange -> NDRange -> NDRange -> DeviceMemory -> DeviceMemory;
  uninitialised : DeviceMemory
}.

(** *** Commands and the queue *)

(** [memcpy] of [data] into a host array: the first bytes are replaced. *)
Definition overwrite (data dest : list byte) : list byte :=
  data ++ drop (length data) dest.

Definition store (buffer : cl_mem) (offset : Z) (data : list byte)
    (mem : DeviceMemory) : DeviceMemory :=
  fun m i =>
    if decide (m = buffer /\ offset <= Z.of_nat i < offset + Z.of_nat (length data))
    then default Byte.x00 (data !! Z.to_nat (Z.of_nat i - offset))
    else mem m i.

Definition load (buffer : cl_mem) (offset size : Z) (mem : DeviceMemory) : list byte :=
  (fun i => mem buffer (Z.to_nat offset + i)%nat) <$> seq 0 (Z.to_nat size).

(** The effect of a command on the memory of the device when it completes. *)
Definition complete `{Runtime} (mem : DeviceMemory) (c : Command) : DeviceMemory :=
  match c with
  | WriteBufferCmd buffer offset data => store buffer offset data mem
  | NDRangeKernelCmd kernel offset global local => kernel_effect kernel offset global local mem
  | ReadBufferCmd _ _ _ => mem
  end.

(** The device state a queue works on: its context and the queue. *)
Definition DeviceState : Type := Context * CommandQueue.

Definition with_memory (c : Context) (mem : DeviceMemory) : Context :=
  {| ctx_devices := ctx_devices c; next_mem := next_mem c; memory := mem |}.

(** A call returns: if it waits, every pending command (the new one
    included) has completed in order; if not, the new command is pending. *)
Definition return_from_call `{Runtime} (st : DeviceState) (c : QueueCall)
    (new : list Command) (wait : bool) : DeviceState :=
  let '(ctx, q) := st in
  let cmds := pending q ++ new in
  if wait
  then (with_memory ctx (fold_left complete cmds (memory ctx)),
        {| pending := [];
           history := history q ++ [{| call := c; pending_at_return := [] |}] |})
  else (ctx,
        {| pending := cmds;
           history := history q ++ [{| call := c; pending_at_return := cmds |}] |}).

(** [enqueueWriteBuffer(buffer, blocking, offset, size, ptr)]. The bytes
    are taken from [ptr] at the call. *)
Definition enqueueWriteBuffer `{Runtime} (st : DeviceState) (buffer : Buffer)
    (blocking : bool) (offset size : Z) (ptr : list byte) : DeviceState :=
  return_from_call st (EnqueueWriteBuffer buffer blocking offset size ptr)
    [WriteBufferCmd (buf_mem buffer) offset (take (Z.to_nat size) ptr)] blocking.

(** [enqueueNDRangeKernel(kernel, offset, global, local)]: there is no
    blocking form of this call. *)
Definition enqueueNDRangeKernel `{Runtime} (st : DeviceState) (kernel : Kernel)
    (offset global local : NDRange) : DeviceState :=
  return_from_call st (EnqueueNDRangeKernel kernel offset global local)
    [NDRangeKernelCmd kernel offset global local] false.

(** [finish()]. *)
Definition finish `{Runtime} (st : DeviceState) : DeviceState :=
  return_from_call st Finish [] true.

(** [enqueueReadBuffer(buffer, blocking, offset, size, ptr)]: the state
    after the call and, for a blocking read, the bytes now at [ptr]. (A
    read that does not block fills [ptr] later; the header has none.) *)
Definition enqueueReadBuffer `{Runtime} (st : DeviceState) (buffer : Buffer)
    (blocking : bool) (offset size : Z) : DeviceState * option (list byte) :=
  let st' := return_from_call st (EnqueueReadBuffer buffer blocking offset size)
               [ReadBufferCmd (buf_mem buffer) offset size] blocking in
  (st', if blocking then Some (load (buf_mem buffer) offset size (memory (fst st'))) else None).

(** [new cl::Buffer(context, flags, size)]. *)
Definition new_Buffer (ctx : Context) (flags : cl_mem_flags) (size : Z) : Buffer * Context :=
  ({| buf_mem := next_mem ctx; buf_flags := flags; buf_size := size |},
   {| ctx_devices := ctx_devices ctx; next_mem := Pos.succ (next_mem ctx);
      memory := memory ctx |}).

(** [kernel.setArg(index, value)]. *)
Definition setArg (k : Kernel) (index : nat) (value : KernelArg) : Kernel :=
  {| kernel_name := kernel_name k; kernel_args := <[index := value]> (kernel_args k) |}.

(** [std::string::c_str] read back as a C string: the characters before
    the first NUL. *)
Fixpoint c_str (s : string) : string :=
  match s with
  | EmptyString => EmptyString
  | String c s' => if decide (c = Ascii.zero) then EmptyString else String c (c_str s')
  end.

(** [new cl::Kernel(program, name)]. *)
Definition new_Kernel (p : Program) (name : string) : Kernel :=
  {| kernel_name := name; kernel_args := ∅ |}.

(** ** [readFile] and [OCL] (lines 38-87) *)

(** The line feed the constructor writes after the build log. *)
Definition line_feed : string := String (Ascii.ascii_of_nat 10) EmptyString.

(** Lines 38-43: the contents of the file; the empty string when the
    path cannot be opened (the stream is in a failed state and the
    iterators read nothing); on a path that opens and cannot be read the
    stream buffer throws [std::ios_base::failure], which leaves the
    function. *)
Definition readFile `{Runtime} (filepath : string) : outcome string :=
  match files !! filepath with
  | Some (Contents text) => Returns text
  | Some Unreadable => Throws "std::ios_base::failure"
  | None => Returns EmptyString
  end.

(** The loop of lines 68-72, from the sources read so far. *)
Fixpoint read_sources `{Runtime} (kernelFiles : list string) (sources : list string)
    : outcome (list string) :=
  match kernelFiles with
  | [] => Returns sources
  | filepath :: kernelFiles' =>
      code ← readFile filepath;
      read_sources kernelFiles' (sources ++ [code])
  end.

(** The fields of [class OCL]; [context], [queue] and [program] are owned
    pointers to objects made by [new], kept here as the objects. *)
Record OCL := {
  device : Device;
  sources : list string;
  context : Context;
  queue : CommandQueue;
  program : Program
}.

(** Lines 61-80. The result is what was written to [std::cout] and the
    outcome. An exception of [readFile] leaves the constructor before
    the program is made. *)
Definition OCL_ctor `{Runtime} (kernelFiles : list string) : string * outcome OCL :=
  let device := getSemiIdealDevice platforms in
  let context := {| ctx_devices := [device]; next_mem := 1%positive;
                    memory := uninitialised |} in
  let queue := {| pending := []; history := [] |} in
  match read_sources kernelFiles [] with
  | Returns sources =>
      let program := {| prog_context_devices := ctx_devices context;
                        prog_sources := sources |} in
      if decide (clBuildProgram program [device] ≠ CL_SUCCESS)
      then (" Error building: " +:+ CL_PROGRAM_BUILD_LOG program device +:+ line_feed,
            Exits 1)
      else (EmptyString,
            Returns {| device := device; sources := sources; context := context;
                       queue := queue; program := program |})
  | Exits status => (EmptyString, Exits status)
  | Throws what => (EmptyString, Throws what)
  | Undefined => (EmptyString, Undefined)
  end.

(** ** The SDL objects the header holds *)

Module SDL_Rect.
Record t := { x : Z; y : Z; w : Z; h : Z }.
End SDL_Rect.

Inductive SDL_PixelFormat := SDL_PIXELFORMAT_ARGB8888.
Inductive SDL_TextureAccess := SDL_TEXTUREACCESS_STREAMING.
Inductive SDL_BlendMode :=
| SDL_BLENDMODE_NONE
| SDL_BLENDMODE_BLEND
| SDL_BLENDMODE_ADD
| SDL_BLENDMODE_MOD.

(** [SDL_Renderer]: the largest texture it makes (0: no limit). *)
Record SDL_Renderer := {
  max_texture_width : Z;
  max_texture_height : Z
}.

(** [SDL_Texture]: its rows of 32-bit pixel values ([None] until the
    first update: the contents of a new texture are not defined) and
    the blend mode set on it ([None]: the one SDL gave it). *)
Record SDL_Texture := {
  tex_format : SDL_PixelFormat;
  tex_access : SDL_TextureAccess;
  tex_w : Z;
  tex_h : Z;
  tex_rows : option (list (list Z));
  tex_blend : option SDL_BlendMode
}.

(** [SDL_CreateTexture]: no texture ([nullptr]) for a width or height
    that is not positive or that the renderer does not take. *)
Definition SDL_CreateTexture (renderer : SDL_Renderer) (format : SDL_PixelFormat)
    (access : SDL_TextureAccess) (w h : Z) : option SDL_Texture :=
  if (w <=? 0) || (h <=? 0) then None
  else if (negb (max_texture_width renderer =? 0) && (max_texture_width renderer <? w))
          || (negb (max_texture_height renderer =? 0) && (max_texture_height renderer <? h))
  then None
  else Some {| tex_format := format; tex_access := access; tex_w := w; tex_h := h;
               tex_rows := None; tex_blend := None |}.

(** The value of an [unsigned char]. *)
Definition uchar (b : byte) : Z := Z.of_N (Byte.to_N b).

(** The 32-bit value a little-endian host reads from four bytes. *)
Definition le32 (b0 b1 b2 b3 : byte) : Z :=
  uchar b0 + Z.shiftl (uchar b1) 8 + Z.shiftl (uchar b2) 16 + Z.shiftl (uchar b3) 24.

(** Reading a pixel value at a byte offset of a host array; outside the
    array the read is undefined. *)
Definition load32 (mem : list byte) (offset : Z) : outcome Z :=
  if offset <? 0 then Undefined
  else
    let i := Z.to_nat offset in
    match mem !! i, mem !! (i + 1)%nat, mem !! (i + 2)%nat, mem !! (i + 3)%nat with
    | Some b0, Some b1, Some b2, Some b3 => Returns (le32 b0 b1 b2 b3)
    | _, _, _, _ => Undefined
    end.

(** All the calls return, or the first that does not decides. *)
Fixpoint collect {A} (l : list (outcome A)) : outcome (list A) :=
  match l with
  | [] => Returns []
  | o :: l' => a ← o; r ← collect l'; Returns (a :: r)
  end.

(** [SDL_UpdateTexture(texture, nullptr, pixels, pitch)]: on no texture
    or a pitch of 0 an error that the header ignores; otherwise row [y]
    of the texture is read from byte [y * pitch] on, four bytes a pixel. *)
Definition SDL_UpdateTexture (texture : option SDL_Texture) (pixels : list byte)
    (pitch : Z) : outcome (option SDL_Texture) :=
  match texture with
  | None => Returns None
  | Some tex =>
      if pitch =? 0 then Returns (Some tex) else
      rows ← collect ((fun y =>
                 collect ((fun x => load32 pixels (y * pitch + 4 * x)) <$> seqZ 0 (tex_w tex)))
               <$> seqZ 0 (tex_h tex));
      Returns (Some {| tex_format := tex_format tex; tex_access := tex_access tex;
                       tex_w := tex_w tex; tex_h := tex_h tex;
                       tex_rows := Some rows; tex_blend := tex_blend tex |})
  end.

(** [SDL_SetTextureBlendMode(texture, blend)]. *)
Definition SDL_SetTextureBlendMode (texture : option SDL_Texture) (blend : SDL_BlendMode)
    : option SDL_Texture :=
  (fun tex => {| tex_format := tex_format tex; tex_access := tex_access tex;
                 tex_w := tex_w tex; tex_h := tex_h tex;
                 tex_rows := tex_rows tex; tex_blend := Some blend |}) <$> texture.

(** The pixel value at column [x] of row [y]. *)
Definition texel (tex : SDL_Texture) (x y : Z) : option Z :=
  rows ← tex_rows tex; row ← rows !! Z.to_nat y; row !! Z.to_nat x.

(** The channels of a pixel value in [SDL_PIXELFORMAT_ARGB8888]. *)
Definition ARGB8888_alpha (p : Z) : Z := Z.land (Z.shiftr p 24) 255.
Definition ARGB8888_red (p : Z) : Z := Z.land (Z.shiftr p 16) 255.
Definition ARGB8888_green (p : Z) : Z := Z.land (Z.shiftr p 8) 255.
Definition ARGB8888_blue (p : Z) : Z := Z.land p 255.

(** ** [SDL_ShaderTexture] (lines 90-164) *)

(** The fields of [class SDL_ShaderTexture]. [pixelBuffer] is made by
    [new] in the constructor and kept as the object; [shaderKernel] is
    [nullptr] ([None]) until [setShader]. The private [ocl] points to an
    object the caller owns: every member function takes that object and
    gives it back. *)
Record SDL_ShaderTexture := {
  texture : option SDL_Texture;
  rect : SDL_Rect.t;
  pixels : list byte;
  pixelBuffer : Buffer;
  shaderKernel : option Kernel;
  shader : string
}.

Definition with_texture (t : SDL_ShaderTexture) (tex : option SDL_Texture) :=
  {| texture := tex; rect := rect t; pixels := pixels t; pixelBuffer := pixelBuffer t;
     shaderKernel := shaderKernel t; shader := shader t |}.

Definition with_pixels (t : SDL_ShaderTexture) (px : list byte) :=
  {| texture := texture t; rect := rect t; pixels := px; pixelBuffer := pixelBuffer t;
     shaderKernel := shaderKernel t; shader := shader t |}.

Definition with_device_state (o : OCL) (st : DeviceState) : OCL :=
  {| device := device o; sources := sources o; context := fst st; queue := snd st;
     program := program o |}.

(** The largest [std::vector<unsigned char>]. *)
Definition VECTOR_MAX_SIZE : Z := 2 ^ 63 - 1.

(** [std::vector<unsigned char>(count, value)]. *)
Definition new_vector (count : Z) (value : byte) : outcome (list byte) :=
  if VECTOR_MAX_SIZE <? count then Throws "std::length_error"
  else Returns (replicate (Z.to_nat count) value).

(** [memset(dest, c, n)] on a host array of at least [n] bytes. *)
Definition memset (dest : list byte) (c : byte) (n : Z) : list byte :=
  replicate (Z.to_nat n) c ++ drop (Z.to_nat n) dest.

(** Lines 145-149. *)
Definition update (t : SDL_ShaderTexture) (o : OCL) : outcome (SDL_ShaderTexture * OCL) :=
  pitch ← int_mul (SDL_Rect.w (rect t)) 4;
  tex ← SDL_UpdateTexture (texture t) (pixels t) pitch;
  Returns (with_texture t tex, o).

(** Lines 113-123. *)
Definition SDL_ShaderTexture_ctor (renderer : SDL_Renderer) (o : OCL) (width height : Z)
    : outcome (SDL_ShaderTexture * OCL) :=
  let rect := {| SDL_Rect.x := 0; SDL_Rect.y := 0; SDL_Rect.w := width; SDL_Rect.h := height |} in
  let texture := SDL_CreateTexture renderer SDL_PIXELFORMAT_ARGB8888
                   SDL_TEXTUREACCESS_STREAMING width height in
  wh ← int_mul width height;
  n ← int_mul wh 4;
  pixels ← new_vector (to_size_t n) Byte.x00;
  let '(pixelBuffer, ctx) :=
    new_Buffer (context o) CL_MEM_READ_WRITE (sizeof_uchar * Z.of_nat (length pixels)) in
  update {| texture := texture; rect := rect; pixels := pixels; pixelBuffer := pixelBuffer;
            shaderKernel := None; shader := EmptyString |}
         (with_device_state o (ctx, queue o)).

(** Lines 131-135. [pixels[0]] on an empty vector is undefined
    behaviour. *)
Definition blank (t : SDL_ShaderTexture) (o : OCL) : outcome (SDL_ShaderTexture * OCL) :=
  match pixels t with
  | [] => Undefined
  | _ :: _ =>
      Returns (with_pixels t (memset (pixels t) Byte.x00
                                (Z.of_nat (length (pixels t)) * sizeof_uchar)), o)
  end.

(** Lines 137-143. *)
Definition shade `{Runtime} (t : SDL_ShaderTexture) (o : OCL)
    : outcome (SDL_ShaderTexture * OCL) :=
  let st := (context o, queue o) in
  let st := enqueueWriteBuffer st (pixelBuffer t) CL_TRUE 0
              (sizeof_uchar * Z.of_nat (length (pixels t))) (pixels t) in
  match shaderKernel t with
  | None => Undefined
  | Some kernel =>
      items ← int_mul (SDL_Rect.w (rect t)) (SDL_Rect.h (rect t));
      let st := enqueueNDRangeKernel st kernel NullRange (NDRange1 (to_size_t items)) NullRange in
      let st := finish st in
      let '(st, read) := enqueueReadBuffer st (pixelBuffer t) CL_TRUE 0
                           (sizeof_uchar * Z.of_nat (length (pixels t))) in
      Returns (with_pixels t (from_option (fun data => overwrite data (pixels t)) (pixels t) read),
               with_device_state o st)
  end.

(** Lines 151-153. *)
Definition setBlendMode (blend : SDL_BlendMode) (t : SDL_ShaderTexture) (o : OCL)
    : outcome (SDL_ShaderTexture * OCL) :=
  Returns (with_texture t (SDL_SetTextureBlendMode (texture t) blend), o).

(** Lines 155-164. *)
Definition setShader (shader : string) (t : SDL_ShaderTexture) (o : OCL)
    : outcome (SDL_ShaderTexture * OCL) :=
  let kernel := new_Kernel (program o) (c_str shader) in
  let kernel := setArg kernel 0 (ArgMem (buf_mem (pixelBuffer t))) in
  let kernel := setArg kernel 1 (ArgInt (SDL_Rect.w (rect t))) in
  let kernel := setArg kernel 2 (ArgInt (SDL_Rect.h (rect t))) in
  Returns ({| texture := texture t; rect := rect t; pixels := pixels t;
              pixelBuffer := pixelBuffer t; shaderKernel := Some kernel; shader := shader |},
           o).

(** ** Sequences of member-function calls on one texture *)

Inductive Op :=
| OpBlank
| OpShade
| OpUpdate
| OpSetBlendMode (blend : SDL_BlendMode)
| OpSetShader (shader : string).

Definition run_op `{Runtime} (op : Op) (st : SDL_ShaderTexture * OCL)
    : outcome (SDL_ShaderTexture * OCL) :=
  match op with
  | OpBlank => blank (fst st) (snd st)
  | OpShade => shade (fst st) (snd st)
  | OpUpdate => update (fst st) (snd st)
  | OpSetBlendMode blend => setBlendMode blend (fst st) (snd st)
  | OpSetShader shader => setShader shader (fst st) (snd st)
  end.

Fixpoint run_ops `{Runtime} (ops : list Op) (st : SDL_ShaderTexture * OCL)
    : outcome (SDL_ShaderTexture * OCL) :=
  match ops with
  | [] => Returns st
  | op :: ops' => st' ← run_op op st; run_ops ops' st'
  end.

(** ** Properties of states *)

(** A call blocked until completion: it left nothing to wait for. *)
Definition blocked_until_completion (r : CallRecord) : Prop :=
  pending_at_return r = [].

(** The device buffer has the size in bytes of the pixel array. *)
Definition buffer_matches (t : SDL_ShaderTexture) : Prop :=
  buf_size (pixelBuffer t) = sizeof_uchar * Z.of_nat (length (pixels t)).

(** What a member function leaves as it is: the rectangle, the buffer
    object, the size of the pixel array, and the device, sources and
    program of the [OCL] object. *)
Definition same_frame (st st' : SDL_ShaderTexture * OCL) : Prop :=
  rect (fst st') = rect (fst st) /\
  pixelBuffer (fst st') = pixelBuffer (fst st) /\
  length (pixels (fst st')) = length (pixels (fst st)) /\
  device (snd st') = device (snd st) /\
  sources (snd st') = sources (snd st) /\
  program (snd st') = program (snd st).

(** A path whose reading raises no error: a file with contents, or a
    path that cannot be opened. *)
Definition readable `{Runtime} (filepath : string) : Prop :=
  files !! filepath <> Some Unreadable.

(** What is read from such a path. *)
Definition file_text `{Runtime} (filepath : string) : string :=
  match files !! filepath with
  | Some (Contents text) => text
  | _ => EmptyString
  end.

(** Binding further kernel arguments, as calling code does through the
    public [shaderKernel]. *)
Definition setArgs (k : Kernel) (args : list (nat * KernelArg)) : Kernel :=
  fold_left (fun k a => setArg k (fst a) (snd a)) args k.

(** ** A small machine to run the header on

    Two platforms, a CPU that reports no clock frequency and a GPU; one
    kernel file that builds, beside a directory; a kernel that fills the
    buffer bound to its argument 0. *)

Definition example_cpu : cl_device :=
  {| device_id := 1; CL_DEVICE_MAX_COMPUTE_UNITS := 4; CL_DEVICE_MAX_CLOCK_FREQUENCY := 0 |}.

Definition example_gpu : cl_device :=
  {| device_id := 2; CL_DEVICE_MAX_COMPUTE_UNITS := 8; CL_DEVICE_MAX_CLOCK_FREQUENCY := 1000 |}.

Definition example_source : string := "kernel void fill(global uchar* px, int w, int h) {}".

Definition example_runtime : Runtime := {|
  platforms := [[example_cpu]; [example_gpu]];
  files := <["kernels" := Unreadable]> {[ "fill.cl" := Contents example_source ]};
  clBuildProgram := fun p _ =>
    if decide (prog_sources p = [example_source]) then CL_SUCCESS else -11;
  CL_PROGRAM_BUILD_LOG := fun _ _ => "error: no kernel";
  kernel_effect := fun k _ _ _ mem =>
    match kernel_args k !! 0%nat with
    | Some (ArgMem b) => fun m i => if decide (m = b) then Byte.xff else mem m i
    | _ => mem
    end;
  uninitialised := fun _ _ => Byte.x00
|}.

Definition example_renderer : SDL_Renderer :=
  {| max_texture_width := 0; max_texture_height := 0 |}.

(** The [OCL] object that [OCL::OCL] makes on this machine, and what the
    constructor of a 2-by-1 texture makes of it and leaves it as. *)
Definition example_ocl0 : OCL :=
  {| device := Some example_gpu;
     sources := [example_source];
     context := {| ctx_devices := [Some example_gpu]; next_mem := 1%positive;
                   memory := fun _ _ => Byte.x00 |};
     queue := {| pending := []; history := [] |};
     program := {| prog_context_devices := [Some example_gpu];
                   prog_sources := [example_source] |} |}.

Definition example_ocl : OCL :=
  {| device := Some example_gpu;
     sources := [example_source];
     context := {| ctx_devices := [Some example_gpu]; next_mem := 2%positive;
                   memory := fun _ _ => Byte.x00 |};
     queue := {| pending := []; history := [] |};
     program := {| prog_context_devices := [Some example_gpu];
                   prog_sources := [example_source] |} |}.

Definition example_texture0 : SDL_ShaderTexture :=
  {| texture := Some {| tex_format := SDL_PIXELFORMAT_ARGB8888;
                        tex_access := SDL_TEXTUREACCESS_STREAMING;
                        tex_w := 2; tex_h := 1;
                        tex_rows := Some [[0; 0]]; tex_blend := None |};
     rect := {| SDL_Rect.x := 0; SDL_Rect.y := 0; SDL_Rect.w := 2; SDL_Rect.h := 1 |};
     pixels := replicate 8 Byte.x00;
     pixelBuffer := {| buf_mem := 1%positive; buf_flags := CL_MEM_READ_WRITE; buf_size := 8 |};
     shaderKernel := None;
     shader := EmptyString |}.

(** The texture after [setShader("fill")]. *)
Definition example_kernel : Kernel :=
  {| kernel_name := "fill";
     kernel_args := <[2%nat := ArgInt 1]> (<[1%nat := ArgInt 2]> (<[0%nat := ArgMem 1%positive]> ∅)) |}.

Definition example_texture : SDL_ShaderTexture :=
  {| texture := texture example_texture0;
     rect := rect example_texture0;
     pixels := pixels example_texture0;
     pixelBuffer := pixelBuffer example_texture0;
     shaderKernel := Some example_kernel;
     shader := "fill" |}.

(** ** Further notions for the properties below *)

(** [maxClock] when the scan ends on [best]: the score of the device the
    scan holds, 0 while it holds none. *)
Definition best_score (best : Device) : Z :=
  match best with
  | Some d => score d
  | None => 0
  end.

(** The exact product of the two values [getInfo] answers for a device. *)
Definition exact_product (d : cl_device) : Z :=
  CL_DEVICE_MAX_COMPUTE_UNITS d * CL_DEVICE_MAX_CLOCK_FREQUENCY d.

(** No [shade] comes before the first [setShader]. *)
Fixpoint shade_after_setShader (ops : list Op) : bool :=
  match ops with
  | [] => true
  | OpShade :: _ => false
  | OpSetShader _ :: _ => true
  | _ :: ops' => shade_after_setShader ops'
  end.

(** No [blank] in a sequence. *)
Fixpoint without_blank (ops : list Op) : bool :=
  match ops with
  | [] => true
  | OpBlank :: _ => false
  | _ :: ops' => without_blank ops'
  end.

(** The number of [shade] calls in a sequence. *)
Fixpoint count_shade (ops : list Op) : nat :=
  match ops with
  | [] => 0
  | OpShade :: ops' => S (count_shade ops')
  | _ :: ops' => count_shade ops'
  end.

(** The shape of a texture of [width] by [height]: the rectangle, the
    size of the pixel array, and the size of the SDL texture if there is
    one. *)
Definition well_formed (width height : Z) (t : SDL_ShaderTexture) : Prop :=
  rect t = {| SDL_Rect.x := 0; SDL_Rect.y := 0; SDL_Rect.w := width; SDL_Rect.h := height |} /\
  in_int (width * height) = true /\
  in_int (width * 4) = true /\
  Z.of_nat (length (pixels t)) = width * height * 4 /\
  match texture t with
  | None => True
  | Some tex => tex_w tex = width /\ tex_h tex = height /\ 0 < width /\ 0 < height
  end.

(** A string holds a NUL character. *)
Fixpoint has_nul (s : string) : bool :=
  match s with
  | EmptyString => false
  | String c s' => if decide (c = Ascii.zero) then true else has_nul s'
  end.

(** The small machine with a compiler that accepts every program. *)
Definition lenient_runtime : Runtime := {|
  platforms := platforms (Runtime := example_runtime);
  files := files (Runtime := example_runtime);
  clBuildProgram := fun _ _ => CL_SUCCESS;
  CL_PROGRAM_BUILD_LOG := CL_PROGRAM_BUILD_LOG (Runtime := example_runtime);
  kernel_effect := kernel_effect (Runtime := example_runtime);
  uninitialised := uninitialised (Runtime := example_runtime)
|}.

(** The small machine with kernels that write nothing. *)
Definition idle_runtime : Runtime := {|
  platforms := platforms (Runtime := example_runtime);
  files := files (Runtime := example_runtime);
  clBuildProgram := clBuildProgram (Runtime := example_runtime);
  CL_PROGRAM_BUILD_LOG := CL_PROGRAM_BUILD_LOG (Runtime := example_runtime);
  kernel_effect := fun _ _ _ _ mem => mem;
  uninitialised := uninitialised (Runtime := example_runtime)
|}.

(** A machine without any device, with a compiler that accepts every
    program. *)
Definition deviceless_runtime : Runtime := {|
  platforms := [[]; []];
  files := files (Runtime := example_runtime);
  clBuildProgram := fun _ _ => CL_SUCCESS;
  CL_PROGRAM_BUILD_LOG := CL_PROGRAM_BUILD_LOG (Runtime := example_runtime);
  kernel_effect := kernel_effect (Runtime := example_runtime);
  uninitialised := uninitialised (Runtime := example_runtime)
|}.

(** * Properties *)

(** ** Device selection *)

Lemma wrap_uint_range z : 0 <= wrap_uint z < UINT_MODULUS.
Proof. unfold wrap_uint, UINT_MODULUS. apply Z.mod_pos_bound. lia. Qed.

Lemma wrap_uint_small z : 0 <= z < UINT_MODULUS -> wrap_uint z = z.
Proof. intros H. unfold wrap_uint. now apply Z.mod_small. Qed.

Lemma score_range d : 0 <= score d < UINT_MODULUS.
Proof. apply wrap_uint_range. Qed.

(** Without overflow the score is the exact product. *)
Lemma score_exact d :
  0 <= CL_DEVICE_MAX_COMPUTE_UNITS d * CL_DEVICE_MAX_CLOCK_FREQUENCY d < UINT_MODULUS ->
  score d = CL_DEVICE_MAX_COMPUTE_UNITS d * CL_DEVICE_MAX_CLOCK_FREQUENCY d.
Proof. apply wrap_uint_small. Qed.

Lemma score_zero_product d :
  CL_DEVICE_MAX_COMPUTE_UNITS d * CL_DEVICE_MAX_CLOCK_FREQUENCY d = 0 -> score d = 0.
Proof. intros H. unfold score. rewrite H. reflexivity. Qed.

(** A product that does not fit [unsigned int] wraps: 65536 compute units
    at 65536 MHz score 0. *)
Example score_wraps :
  score {| device_id := 1; CL_DEVICE_MAX_COMPUTE_UNITS := 65536;
           CL_DEVICE_MAX_CLOCK_FREQUENCY := 65536 |} = 0.
Proof. reflexivity. Qed.

Lemma visit_platforms_concat platforms acc :
  fold_left visit_platform platforms acc = fold_left visit (enumerate platforms) acc.
Proof.
  revert acc. induction platforms as [|p ps IH]; intros acc; [reflexivity|].
  cbn [fold_left enumerate concat]. rewrite fold_left_app. apply IH.
Qed.

(** What a scan of [l] does to [(bestDevice, maxClock)]: nothing when no
    score exceeds [maxClock], and otherwise it ends on the first device
    of highest score. *)
Lemma visit_scan l : forall best m,
  (fold_left visit l (best, m) = (best, m) /\ forall x, x ∈ l -> score x <= m) \/
  (exists d, fold_left visit l (best, m) = (Some d, score d) /\
             m < score d /\ first_highest l d).
Proof.
  induction l as [|d l IH]; intros best m.
  - left. split; [reflexivity|]. intros x Hx. inversion Hx.
  - cbn [fold_left visit]. destruct (score d >? m) eqn:Hgt.
    + apply Z.gtb_lt in Hgt.
      destruct (IH (Some d) (score d)) as [[Heq Hle] | (d' & Heq & Hlt & b & a & Hl & Hb & Ha)].
      * right. exists d. split; [exact Heq|]. split; [exact Hgt|].
        exists [], l. split; [reflexivity|]. split; [|exact Hle].
        intros x Hx. inversion Hx.
      * right. exists d'. split; [exact Heq|]. split; [lia|].
        exists (d :: b), a. split; [now rewrite Hl|]. split; [|exact Ha].
        intros x Hx. apply elem_of_cons in Hx as [->|Hx]; [exact Hlt|now apply Hb].
    + assert (score d <= m) as Hdm.
      { destruct (Z.gtb_spec (score d) m); [discriminate|lia]. }
      destruct (IH best m) as [[Heq Hle] | (d' & Heq & Hlt & b & a & Hl & Hb & Ha)].
      * left. split; [exact Heq|].
        intros x Hx. apply elem_of_cons in Hx as [->|Hx]; [exact Hdm|now apply Hle].
      * right. exists d'. split; [exact Heq|]. split; [exact Hlt|].
        exists (d :: b), a. split; [now rewrite Hl|]. split; [|exact Ha].
        intros x Hx. apply elem_of_cons in Hx as [->|Hx]; [lia|now apply Hb].
Qed.

Lemma getSemiIdealDevice_scan platforms :
  (getSemiIdealDevice platforms = None /\
     forall x, x ∈ enumerate platforms -> score x = 0) \/
  (exists d, getSemiIdealDevice platforms = Some d /\ 0 < score d /\
             first_highest (enumerate platforms) d).
Proof.
  unfold getSemiIdealDevice. rewrite visit_platforms_concat.
  destruct (visit_scan (enumerate platforms) None 0)
    as [[Heq Hle] | (d & Heq & Hlt & Hfirst)]; rewrite Heq; cbn [fst].
  - left. split; [reflexivity|]. intros x Hx.
    pose proof (score_range x). specialize (Hle x Hx). lia.
  - right. exists d. auto.
Qed.

Lemma first_highest_elem l d : first_highest l d -> d ∈ l.
Proof.
  intros (b & a & -> & _). apply elem_of_app. right. apply elem_of_cons. now left.
Qed.

Lemma first_highest_max l d x : first_highest l d -> x ∈ l -> score x <= score d.
Proof.
  intros (b & a & -> & Hb & Ha) Hx.
  apply elem_of_app in Hx as [Hx|Hx]; [specialize (Hb x Hx); lia|].
  apply elem_of_cons in Hx as [->|Hx]; [lia|now apply Ha].
Qed.


(** C1, as the specification states it, fails on a single device of
    score 0: that device is the first device of highest score among the
    enumerated ones, and [getSemiIdealDevice] returns the
    default-constructed handle, not that device. *)
Lemma single_zero_score_device_counterexample :
  let d := {| device_id := 1; CL_DEVICE_MAX_COMPUTE_UNITS := 4;
              CL_DEVICE_MAX_CLOCK_FREQUENCY := 0 |} in
  enumerate [[d]] = [d] /\
  first_highest (enumerate [[d]]) d /\
  getSemiIdealDevice [[d]] = None /\
  getSemiIdealDevice [[d]] <> Some d.
Proof.
  cbv zeta. split; [reflexivity|]. split; [|split; [reflexivity|discriminate]].
  exists [], []. split; [reflexivity|].
  split; intros x Hx; inversion Hx.
Qed.

(** C1, amended: when some enumerated device has a score other than 0,
    [getSemiIdealDevice] returns the first device, in platform-then-device
    order, whose score (compute units times clock frequency, in
    [unsigned int]) is the highest among all enumerated devices. *)
Theorem getSemiIdealDevice_first_highest (platforms : list Platform) :
  (exists x, x ∈ enumerate platforms /\ score x <> 0) ->
  exists d,
    getSemiIdealDevice platforms = Some d /\
    first_highest (enumerate platforms) d /\
    d ∈ enumerate platforms /\
    (forall x, x ∈ enumerate platforms -> score x <= score d).
Proof.
  intros (x & Hx & Hnz).
  destruct (getSemiIdealDevice_scan platforms) as [[_ Hall] | (d & Hd & _ & Hfirst)].
  - exfalso. apply Hnz. now apply Hall.
  - exists d. split; [exact Hd|]. split; [exact Hfirst|].
    split; [now apply first_highest_elem|].
    intros y Hy. now apply first_highest_max with (enumerate platforms).
Qed.

Lemma getSemiIdealDevice_first_highest_witness :
  let d0 := {| device_id := 1; CL_DEVICE_MAX_COMPUTE_UNITS := 4;
               CL_DEVICE_MAX_CLOCK_FREQUENCY := 0 |} in
  let d1 := {| device_id := 2; CL_DEVICE_MAX_COMPUTE_UNITS := 8;
               CL_DEVICE_MAX_CLOCK_FREQUENCY := 1000 |} in
  let d2 := {| device_id := 3; CL_DEVICE_MAX_COMPUTE_UNITS := 4;
               CL_DEVICE_MAX_CLOCK_FREQUENCY := 2000 |} in
  exists d,
    getSemiIdealDevice [[d0]; [d1; d2]] = Some d /\
    first_highest (enumerate [[d0]; [d1; d2]]) d /\
    d ∈ enumerate [[d0]; [d1; d2]] /\
    (forall x, x ∈ enumerate [[d0]; [d1; d2]] -> score x <= score d).
Proof.
  cbv zeta. apply getSemiIdealDevice_first_highest.
  eexists. split.
  - apply list_elem_of_further, list_elem_of_here.
  - vm_compute. discriminate.
Defined.

(** C10: a device of score 0 is never selected, and when every enumerated
    device has score 0 (also when nothing is enumerated)
    [getSemiIdealDevice] returns the default-constructed handle. *)
Theorem getSemiIdealDevice_zero_score (platforms : list Platform) :
  (forall d, getSemiIdealDevice platforms = Some d ->
             d ∈ enumerate platforms /\ score d <> 0) /\
  ((forall x, x ∈ enumerate platforms -> score x = 0) ->
   getSemiIdealDevice platforms = None).
Proof.
  destruct (getSemiIdealDevice_scan platforms) as [[Hnone Hall] | (d & Hd & Hpos & Hfirst)].
  - split; [intros d Hd; congruence | intros _; exact Hnone].
  - split.
    + intros d' Hd'. assert (d' = d) as -> by congruence.
      split; [now apply first_highest_elem with (l := enumerate platforms) | lia].
    + intros Hall. apply first_highest_elem in Hfirst. specialize (Hall d Hfirst). lia.
Qed.

Lemma getSemiIdealDevice_zero_score_witness :
  let d0 := {| device_id := 1; CL_DEVICE_MAX_COMPUTE_UNITS := 4;
               CL_DEVICE_MAX_CLOCK_FREQUENCY := 0 |} in
  let d1 := {| device_id := 2; CL_DEVICE_MAX_COMPUTE_UNITS := 0;
               CL_DEVICE_MAX_CLOCK_FREQUENCY := 1500 |} in
  getSemiIdealDevice [[d0]; []; [d1]] = None /\ getSemiIdealDevice [] = None.
Proof.
  cbv zeta. split.
  - apply (proj2 (getSemiIdealDevice_zero_score _)).
    intros x Hx. cbn in Hx.
    apply elem_of_cons in Hx as [->|Hx]; [reflexivity|].
    apply elem_of_cons in Hx as [->|Hx]; [reflexivity|]. inversion Hx.
  - apply (proj2 (getSemiIdealDevice_zero_score [])).
    intros x Hx. inversion Hx.
Defined.

(** ** Outcomes *)

Lemma bind_Returns {A B} (m : outcome A) (k : A -> outcome B) b :
  m ≫= k = Returns b <-> exists a, m = Returns a /\ k a = Returns b.
Proof.
  destruct m; cbn; split; try discriminate.
  - intros Hk. eauto.
  - intros (a' & [= <-] & Hk). exact Hk.
  - intros (? & ? & _). discriminate.
  - intros (? & ? & _). discriminate.
  - intros (? & ? & _). discriminate.
Qed.

Lemma bind_not_Exits {A B} (m : outcome A) (k : A -> outcome B) :
  (forall status, m <> Exits status) ->
  (forall a status, k a <> Exits status) ->
  forall status, m ≫= k <> Exits status.
Proof.
  intros Hm Hk status. destruct m; cbn; try discriminate.
  - apply Hk.
  - intros _. now apply (Hm status0).
Qed.

(** A call that neither ends the process nor throws returns or is
    undefined. *)
Lemma bind_Returns_or_Undefined {A B} (m : outcome A) (k : A -> outcome B) :
  (exists a, m = Returns a) \/ m = Undefined ->
  (forall a, (exists b, k a = Returns b) \/ k a = Undefined) ->
  (exists b, m ≫= k = Returns b) \/ m ≫= k = Undefined.
Proof.
  intros [[a ->] | ->] Hk; [apply Hk|now right].
Qed.


Lemma int_mul_Returns a b r :
  int_mul a b = Returns r <-> in_int (a * b) = true /\ r = a * b.
Proof.
  unfold int_mul. destruct (in_int (a * b)); split.
  - intros [= <-]. auto.
  - intros [_ ->]. reflexivity.
  - discriminate.
  - intros [? _]. discriminate.
Qed.

Lemma int_mul_in_int a b : in_int (a * b) = true -> int_mul a b = Returns (a * b).
Proof. intros H. unfold int_mul. now rewrite H. Qed.

Lemma bind_Returns_l {A B} (a : A) (k : A -> outcome B) : Returns a ≫= k = k a.
Proof. reflexivity. Qed.

Lemma int_mul_not_Exits a b status : int_mul a b <> Exits status.
Proof. unfold int_mul. destruct (in_int (a * b)); discriminate. Qed.


Lemma int_mul_Returns_or_Undefined a b :
  (exists r, int_mul a b = Returns r) \/ int_mul a b = Undefined.
Proof. unfold int_mul. destruct (in_int (a * b)); eauto. Qed.

Lemma in_int_range z : in_int z = true <-> INT_MIN <= z <= INT_MAX.
Proof. unfold in_int. rewrite andb_true_iff, !Z.leb_le. reflexivity. Qed.

Lemma collect_Returns {A} (l : list (outcome A)) (r : list A) :
  collect l = Returns r <-> l = Returns <$> r.
Proof.
  revert r. induction l as [|o l IH]; intros r; cbn [collect].
  - destruct r; cbn; split; congruence.
  - rewrite bind_Returns. split.
    + intros (a & -> & Hk). apply bind_Returns in Hk as (r' & Hr' & [= <-]).
      apply IH in Hr' as ->. reflexivity.
    + destruct r as [|a r]; [discriminate|]. cbn. intros [= -> ->].
      exists a. split; [reflexivity|]. apply bind_Returns.
      exists r. split; [now apply IH|reflexivity].
Qed.

Lemma collect_not_Exits {A} (l : list (outcome A)) :
  (forall o status, o ∈ l -> o <> Exits status) ->
  forall status, collect l <> Exits status.
Proof.
  induction l as [|o l IH]; intros Hl; cbn [collect]; [discriminate|].
  apply bind_not_Exits.
  - intros status. apply Hl. left.
  - intros a. apply bind_not_Exits; [|discriminate].
    apply IH. intros o' status' Ho'. apply Hl. now right.
Qed.

(** The result of [collect] over a list of calls, index by index. *)
Lemma collect_fmap_lookup {A B} (f : A -> outcome B) (xs : list A) (r : list B) i x :
  collect (f <$> xs) = Returns r -> xs !! i = Some x ->
  exists b, r !! i = Some b /\ f x = Returns b.
Proof.
  intros Hc Hx. apply collect_Returns in Hc.
  assert ((f <$> xs) !! i = Some (f x)) as Hfx by (now rewrite list_lookup_fmap, Hx).
  rewrite Hc, list_lookup_fmap in Hfx.
  destruct (r !! i) as [b|]; [|discriminate].
  exists b. split; [reflexivity|]. cbn in Hfx. congruence.
Qed.

Lemma collect_fmap_total {A B} (f : A -> outcome B) (xs : list A) :
  (forall x, x ∈ xs -> exists b, f x = Returns b) ->
  exists r, collect (f <$> xs) = Returns r.
Proof.
  induction xs as [|x xs IH]; intros Hf; cbn.
  - eauto.
  - destruct (Hf x) as [b Hb]; [left|].
    destruct IH as [r Hr]; [intros y Hy; apply Hf; now right|].
    exists (b :: r). rewrite Hb. cbn. rewrite Hr. reflexivity.
Qed.

(** ** Pixel values *)

Lemma uchar_range b : 0 <= uchar b < 256.
Proof. unfold uchar. pose proof (Byte.to_N_bounded b). lia. Qed.

(** On a little-endian host the four bytes of an [ARGB8888] pixel are,
    in memory order, its blue, green, red and alpha channels. *)
Lemma le32_channels b0 b1 b2 b3 :
  ARGB8888_blue (le32 b0 b1 b2 b3) = uchar b0 /\
  ARGB8888_green (le32 b0 b1 b2 b3) = uchar b1 /\
  ARGB8888_red (le32 b0 b1 b2 b3) = uchar b2 /\
  ARGB8888_alpha (le32 b0 b1 b2 b3) = uchar b3.
Proof.
  pose proof (uchar_range b0). pose proof (uchar_range b1).
  pose proof (uchar_range b2). pose proof (uchar_range b3).
  unfold ARGB8888_blue, ARGB8888_green, ARGB8888_red, ARGB8888_alpha, le32.
  change 255 with (Z.ones 8).
  rewrite !Z.land_ones, !Z.shiftr_div_pow2, !Z.shiftl_mul_pow2 by lia.
  change (2 ^ 8) with 256. change (2 ^ 16) with 65536. change (2 ^ 24) with 16777216.
  repeat split; Z.div_mod_to_equations; lia.
Qed.

Lemma load32_in_bounds (mem : list byte) offset :
  0 <= offset -> offset + 3 < Z.of_nat (length mem) ->
  exists b0 b1 b2 b3,
    mem !! Z.to_nat offset = Some b0 /\
    mem !! Z.to_nat (offset + 1) = Some b1 /\
    mem !! Z.to_nat (offset + 2) = Some b2 /\
    mem !! Z.to_nat (offset + 3) = Some b3 /\
    load32 mem offset = Returns (le32 b0 b1 b2 b3).
Proof.
  intros H0 Hlen. unfold load32.
  destruct (Z.ltb_spec offset 0); [lia|].
  replace (Z.to_nat (offset + 1)) with (Z.to_nat offset + 1)%nat by lia.
  replace (Z.to_nat (offset + 2)) with (Z.to_nat offset + 2)%nat by lia.
  replace (Z.to_nat (offset + 3)) with (Z.to_nat offset + 3)%nat by lia.
  destruct (lookup_lt_is_Some_2 mem (Z.to_nat offset)) as [b0 E0]; [lia|].
  destruct (lookup_lt_is_Some_2 mem (Z.to_nat offset + 1)) as [b1 E1]; [lia|].
  destruct (lookup_lt_is_Some_2 mem (Z.to_nat offset + 2)) as [b2 E2]; [lia|].
  destruct (lookup_lt_is_Some_2 mem (Z.to_nat offset + 3)) as [b3 E3]; [lia|].
  exists b0, b1, b2, b3. rewrite E0, E1, E2, E3. auto.
Qed.

Lemma load32_not_Exits mem offset status : load32 mem offset <> Exits status.
Proof.
  unfold load32. destruct (offset <? 0); [discriminate|].
  repeat case_match; discriminate.
Qed.

(** ** [SDL_UpdateTexture] and [update] *)

Lemma SDL_UpdateTexture_Some tex px pitch r :
  pitch <> 0 ->
  SDL_UpdateTexture (Some tex) px pitch = Returns r ->
  exists tex', r = Some tex' /\ tex_w tex' = tex_w tex /\ tex_h tex' = tex_h tex /\
    forall x y, 0 <= x < tex_w tex -> 0 <= y < tex_h tex ->
      exists p, texel tex' x y = Some p /\ load32 px (y * pitch + 4 * x) = Returns p.
Proof.
  unfold SDL_UpdateTexture. intros Hpitch Hr.
  destruct (Z.eqb_spec pitch 0); [contradiction|].
  apply bind_Returns in Hr as (rows & Hrows & [= <-]).
  eexists. split; [reflexivity|]. split; [reflexivity|]. split; [reflexivity|].
  intros x y Hx Hy. unfold texel. cbn.
  assert (seqZ 0 (tex_h tex) !! Z.to_nat y = Some y) as Hy'.
  { rewrite lookup_seqZ_lt by lia. f_equal. lia. }
  destruct (collect_fmap_lookup _ _ _ _ _ Hrows Hy') as (row & Hrow & Hcol).
  rewrite Hrow. cbn.
  assert (seqZ 0 (tex_w tex) !! Z.to_nat x = Some x) as Hx'.
  { rewrite lookup_seqZ_lt by lia. f_equal. lia. }
  destruct (collect_fmap_lookup _ _ _ _ _ Hcol Hx') as (p & Hp & Hload).
  exists p. auto.
Qed.

Lemma SDL_UpdateTexture_total tex (px : list byte) :
  0 <= tex_w tex -> 0 <= tex_h tex ->
  Z.of_nat (length px) = tex_w tex * tex_h tex * 4 ->
  exists r, SDL_UpdateTexture (Some tex) px (tex_w tex * 4) = Returns r.
Proof.
  intros Hw Hh Hlen. unfold SDL_UpdateTexture.
  destruct (tex_w tex * 4 =? 0); [eauto|].
  destruct (collect_fmap_total
    (fun y => collect ((fun x => load32 px (y * (tex_w tex * 4) + 4 * x)) <$> seqZ 0 (tex_w tex)))
    (seqZ 0 (tex_h tex))) as [rows Hrows].
  - intros y Hy. apply elem_of_seqZ in Hy.
    apply collect_fmap_total. intros x Hx. apply elem_of_seqZ in Hx.
    destruct (load32_in_bounds px (y * (tex_w tex * 4) + 4 * x)) as (b0 & b1 & b2 & b3 & H);
      [nia|nia|].
    eexists. apply H.
  - rewrite Hrows. cbn. eauto.
Qed.

Lemma SDL_UpdateTexture_not_Exits texture px pitch status :
  SDL_UpdateTexture texture px pitch <> Exits status.
Proof.
  destruct texture as [tex|]; [|discriminate]. unfold SDL_UpdateTexture.
  destruct (pitch =? 0); [discriminate|].
  apply bind_not_Exits; [|discriminate].
  apply collect_not_Exits. intros o st Ho.
  apply list_elem_of_fmap in Ho as (y & -> & _).
  apply collect_not_Exits. intros o' st' Ho'.
  apply list_elem_of_fmap in Ho' as (x & -> & _). apply load32_not_Exits.
Qed.

Lemma update_inversion t o t' o' :
  update t o = Returns (t', o') <->
  in_int (SDL_Rect.w (rect t) * 4) = true /\ o' = o /\
  exists tex, SDL_UpdateTexture (texture t) (pixels t) (SDL_Rect.w (rect t) * 4) = Returns tex /\
              t' = with_texture t tex.
Proof.
  unfold update. rewrite bind_Returns. split.
  - intros (pitch & Hpitch & Hk). apply int_mul_Returns in Hpitch as [Hin ->].
    apply bind_Returns in Hk as (tex & Htex & [= <- <-]). eauto.
  - intros (Hin & -> & tex & Htex & ->).
    exists (SDL_Rect.w (rect t) * 4). split; [now apply int_mul_Returns|].
    rewrite Htex. reflexivity.
Qed.

(** ** The constructor of [SDL_ShaderTexture] *)

Lemma new_vector_Returns count value v :
  new_vector count value = Returns v <->
  count <= VECTOR_MAX_SIZE /\ v = replicate (Z.to_nat count) value.
Proof.
  unfold new_vector. destruct (Z.ltb_spec VECTOR_MAX_SIZE count); split.
  - discriminate.
  - intros [? _]. lia.
  - intros [= <-]. split; [lia|reflexivity].
  - intros [_ ->]. reflexivity.
Qed.

(** An [int] that converts to a [size_t] a vector can have is not negative. *)
Lemma to_size_t_vector n :
  in_int n = true -> to_size_t n <= VECTOR_MAX_SIZE <-> 0 <= n.
Proof.
  intros Hn. apply in_int_range in Hn.
  unfold to_size_t, SIZE_MODULUS, VECTOR_MAX_SIZE, INT_MIN, INT_MAX in *.
  split; intros H.
  - destruct (Z.lt_ge_cases n 0) as [Hneg|]; [|assumption].
    replace n with (n + 2 ^ 64 + (-1) * 2 ^ 64) in H by lia.
    rewrite Z.mod_add in H by lia. rewrite Z.mod_small in H by lia. lia.
  - rewrite Z.mod_small by lia. lia.
Qed.

Lemma to_size_t_nonneg n : in_int n = true -> 0 <= n -> to_size_t n = n.
Proof.
  intros Hn H0. apply in_int_range in Hn.
  unfold to_size_t, SIZE_MODULUS, INT_MIN, INT_MAX in *. apply Z.mod_small. lia.
Qed.

(** What the constructor has done when it returns. *)
Lemma SDL_ShaderTexture_ctor_inversion renderer o width height t o' :
  SDL_ShaderTexture_ctor renderer o width height = Returns (t, o') ->
  in_int (width * height) = true /\
  in_int (width * height * 4) = true /\
  0 <= width * height * 4 /\
  in_int (width * 4) = true /\
  pixels t = replicate (Z.to_nat (width * height * 4)) Byte.x00 /\
  rect t = {| SDL_Rect.x := 0; SDL_Rect.y := 0; SDL_Rect.w := width; SDL_Rect.h := height |} /\
  pixelBuffer t = {| buf_mem := next_mem (context o); buf_flags := CL_MEM_READ_WRITE;
                     buf_size := sizeof_uchar * Z.of_nat (length (pixels t)) |} /\
  shaderKernel t = None /\
  SDL_UpdateTexture
    (SDL_CreateTexture renderer SDL_PIXELFORMAT_ARGB8888 SDL_TEXTUREACCESS_STREAMING width height)
    (pixels t) (width * 4) = Returns (texture t) /\
  device o' = device o /\ queue o' = queue o /\ program o' = program o.
Proof.
  unfold SDL_ShaderTexture_ctor. intros Hc.
  apply bind_Returns in Hc as (wh & Hwh & Hc). apply int_mul_Returns in Hwh as [Hwh ->].
  apply bind_Returns in Hc as (n & Hn & Hc). apply int_mul_Returns in Hn as [Hn ->].
  apply bind_Returns in Hc as (px & Hpx & Hc). apply new_vector_Returns in Hpx as [Hmax ->].
  apply to_size_t_vector in Hmax; [|exact Hn].
  rewrite to_size_t_nonneg in Hc by assumption.
  cbn [new_Buffer] in Hc. apply update_inversion in Hc as (Hpitch & -> & tex & Htex & ->).
  cbn in *. repeat split; assumption.
Qed.

(** The constructor returns on every width and height whose products
    are in [int] and give a size that is not negative. *)
Lemma SDL_ShaderTexture_ctor_total renderer o width height :
  in_int (width * height) = true ->
  in_int (width * height * 4) = true ->
  in_int (width * 4) = true ->
  0 <= width * height * 4 ->
  exists t o', SDL_ShaderTexture_ctor renderer o width height = Returns (t, o').
Proof.
  intros Hwh Hn Hpitch H0. unfold SDL_ShaderTexture_ctor.
  rewrite (int_mul_in_int width height), bind_Returns_l by assumption.
  rewrite (int_mul_in_int (width * height) 4), bind_Returns_l by assumption.
  rewrite to_size_t_nonneg by assumption.
  unfold new_vector. destruct (Z.ltb_spec VECTOR_MAX_SIZE (width * height * 4)) as [Hbig|_].
  { apply in_int_range in Hn. unfold VECTOR_MAX_SIZE, INT_MAX in *. lia. }
  rewrite bind_Returns_l. cbn [new_Buffer].
  set (t0 := {| texture := _ |}). set (o0 := with_device_state _ _).
  assert (exists tex, SDL_UpdateTexture (texture t0) (pixels t0) (SDL_Rect.w (rect t0) * 4)
                      = Returns tex) as [tex Htex].
  { subst t0. cbn [texture pixels rect SDL_Rect.w].
    unfold SDL_CreateTexture.
    destruct (Z.leb_spec width 0); destruct (Z.leb_spec height 0); cbn [orb];
      try (eexists; reflexivity).
    destruct (_ || _); [eexists; reflexivity|].
    apply (SDL_UpdateTexture_total
             {| tex_format := SDL_PIXELFORMAT_ARGB8888; tex_access := SDL_TEXTUREACCESS_STREAMING;
                tex_w := width; tex_h := height; tex_rows := None; tex_blend := None |});
      cbn; [lia|lia|].
    rewrite length_replicate. lia. }
  exists (with_texture t0 tex), o0. apply update_inversion.
  split; [exact Hpitch|]. split; [reflexivity|]. eauto.
Qed.

(** ** [shade] *)

Lemma length_load buffer offset size mem :
  length (load buffer offset size mem) = Z.to_nat size.
Proof. unfold load. now rewrite length_fmap, length_seq. Qed.

Lemma length_overwrite (data dest : list byte) :
  (length data <= length dest)%nat -> length (overwrite data dest) = length dest.
Proof. intros H. unfold overwrite. rewrite length_app, length_drop. lia. Qed.

(** What [shade] has done when it returns. *)
Lemma shade_inversion `{Runtime} t o t' o' :
  shade t o = Returns (t', o') ->
  let n := sizeof_uchar * Z.of_nat (length (pixels t)) in
  let items := NDRange1 (to_size_t (SDL_Rect.w (rect t) * SDL_Rect.h (rect t))) in
  exists kernel,
    shaderKernel t = Some kernel /\
    in_int (SDL_Rect.w (rect t) * SDL_Rect.h (rect t)) = true /\
    history (queue o') = history (queue o) ++
      [ {| call := EnqueueWriteBuffer (pixelBuffer t) CL_TRUE 0 n (pixels t);
           pending_at_return := [] |};
        {| call := EnqueueNDRangeKernel kernel NullRange items NullRange;
           pending_at_return := [NDRangeKernelCmd kernel NullRange items NullRange] |};
        {| call := Finish; pending_at_return := [] |};
        {| call := EnqueueReadBuffer (pixelBuffer t) CL_TRUE 0 n;
           pending_at_return := [] |} ] /\
    pending (queue o') = [] /\
    memory (context o') =
      kernel_effect kernel NullRange items NullRange
        (store (buf_mem (pixelBuffer t)) 0 (pixels t)
           (fold_left complete (pending (queue o)) (memory (context o)))) /\
    t' = with_pixels t (load (buf_mem (pixelBuffer t)) 0 n (memory (context o'))) /\
    o' = with_device_state o (context o', queue o') /\
    ctx_devices (context o') = ctx_devices (context o) /\
    next_mem (context o') = next_mem (context o).
Proof.
  unfold shade. intros Hs. destruct (shaderKernel t) as [kernel|]; [|discriminate].
  apply bind_Returns in Hs as (items & Hitems & Hs).
  apply int_mul_Returns in Hitems as [Hin ->].
  cbn in Hs. injection Hs as <- <-.
  exists kernel. cbn.
  rewrite <- !app_assoc. cbn.
  rewrite fold_left_app. cbn.
  unfold sizeof_uchar. rewrite Z.mul_1_l, Nat2Z.id, firstn_all.
  repeat split; try reflexivity; [exact Hin|].
  f_equal. unfold overwrite. rewrite length_load, Nat2Z.id, drop_all.
  apply app_nil_r.
Qed.

Lemma shade_total `{Runtime} t o kernel :
  shaderKernel t = Some kernel ->
  in_int (SDL_Rect.w (rect t) * SDL_Rect.h (rect t)) = true ->
  exists st', shade t o = Returns st'.
Proof.
  intros Hk Hin. unfold shade. rewrite Hk, (int_mul_in_int _ _ Hin), bind_Returns_l.
  cbn. eauto.
Qed.

Lemma shade_no_kernel `{Runtime} t o : shaderKernel t = None -> shade t o = Undefined.
Proof. intros Hk. unfold shade. now rewrite Hk. Qed.

Lemma shade_not_Exits `{Runtime} t o status : shade t o <> Exits status.
Proof.
  unfold shade. destruct (shaderKernel t); [|discriminate].
  apply bind_not_Exits; [apply int_mul_not_Exits|]. intros a st. cbn. discriminate.
Qed.

Lemma update_not_Exits t o status : update t o <> Exits status.
Proof.
  unfold update. apply bind_not_Exits; [apply int_mul_not_Exits|].
  intros pitch. apply bind_not_Exits; [apply SDL_UpdateTexture_not_Exits|discriminate].
Qed.

(** ** [blank] *)

Lemma memset_all (dest : list byte) c :
  memset dest c (Z.of_nat (length dest) * sizeof_uchar) = replicate (length dest) c.
Proof.
  unfold memset, sizeof_uchar. rewrite Z.mul_1_r, Nat2Z.id, drop_all. apply app_nil_r.
Qed.

Lemma blank_Returns t o t' o' :
  blank t o = Returns (t', o') <->
  pixels t <> [] /\
  t' = with_pixels t (replicate (length (pixels t)) Byte.x00) /\
  o' = o.
Proof.
  unfold blank. rewrite memset_all. destruct (pixels t) as [|b px]; split.
  - discriminate.
  - intros [Hne _]. contradiction.
  - intros [= <- <-]. auto.
  - intros (_ & -> & ->). reflexivity.
Qed.

Lemma blank_empty t o : pixels t = [] -> blank t o = Undefined.
Proof. intros Hpx. unfold blank. now rewrite Hpx. Qed.

Lemma blank_not_Exits t o status : blank t o <> Exits status.
Proof. unfold blank. destruct (pixels t); discriminate. Qed.

(** ** Calls that neither end the process nor throw *)

Lemma load32_Returns_or_Undefined mem offset :
  (exists p, load32 mem offset = Returns p) \/ load32 mem offset = Undefined.
Proof.
  unfold load32. destruct (offset <? 0); [now right|].
  repeat case_match; eauto.
Qed.

Lemma collect_Returns_or_Undefined {A} (l : list (outcome A)) :
  (forall o, o ∈ l -> (exists a, o = Returns a) \/ o = Undefined) ->
  (exists r, collect l = Returns r) \/ collect l = Undefined.
Proof.
  induction l as [|o l IH]; intros Hl; cbn [collect]; [eauto|].
  apply bind_Returns_or_Undefined; [apply Hl; left|].
  intros a. apply bind_Returns_or_Undefined; [|eauto].
  apply IH. intros o' Ho'. apply Hl. now right.
Qed.

Lemma SDL_UpdateTexture_Returns_or_Undefined texture px pitch :
  (exists r, SDL_UpdateTexture texture px pitch = Returns r) \/
  SDL_UpdateTexture texture px pitch = Undefined.
Proof.
  destruct texture as [tex|]; [|cbn; eauto]. unfold SDL_UpdateTexture.
  destruct (pitch =? 0); [eauto|].
  apply bind_Returns_or_Undefined; [|eauto].
  apply collect_Returns_or_Undefined. intros o Ho.
  apply list_elem_of_fmap in Ho as (y & -> & _).
  apply collect_Returns_or_Undefined. intros o' Ho'.
  apply list_elem_of_fmap in Ho' as (x & -> & _). apply load32_Returns_or_Undefined.
Qed.

Lemma update_Returns_or_Undefined t o :
  (exists st', update t o = Returns st') \/ update t o = Undefined.
Proof.
  unfold update. apply bind_Returns_or_Undefined; [apply int_mul_Returns_or_Undefined|].
  intros pitch. apply bind_Returns_or_Undefined; [|eauto].
  apply SDL_UpdateTexture_Returns_or_Undefined.
Qed.

Lemma shade_Returns_or_Undefined `{Runtime} t o :
  (exists st', shade t o = Returns st') \/ shade t o = Undefined.
Proof.
  unfold shade. destruct (shaderKernel t); [|now right].
  apply bind_Returns_or_Undefined; [apply int_mul_Returns_or_Undefined|].
  intros items. cbn. eauto.
Qed.

Lemma run_op_Returns_or_Undefined `{Runtime} op st :
  (exists st', run_op op st = Returns st') \/ run_op op st = Undefined.
Proof.
  destruct op; cbn [run_op]; eauto.
  - unfold blank. destruct (pixels (fst st)); eauto.
  - apply shade_Returns_or_Undefined.
  - apply update_Returns_or_Undefined.
Qed.

(** ** Sequences of calls *)

Lemma same_frame_refl st : same_frame st st.
Proof. unfold same_frame. auto 10. Qed.

Lemma same_frame_trans st1 st2 st3 :
  same_frame st1 st2 -> same_frame st2 st3 -> same_frame st1 st3.
Proof. unfold same_frame. intuition congruence. Qed.

Ltac solve_frame := unfold same_frame; cbn; auto 10.

Lemma run_op_frame `{Runtime} op st st' :
  run_op op st = Returns st' -> same_frame st st'.
Proof.
  destruct st as [t o], st' as [t' o']. destruct op; cbn [run_op fst snd]; intros Hop.
  - apply blank_Returns in Hop as (_ & -> & ->). unfold same_frame. cbn.
    rewrite length_replicate. auto 10.
  - apply shade_inversion in Hop as (k & _ & _ & _ & _ & _ & -> & -> & _).
    unfold same_frame. cbn. rewrite length_load. unfold sizeof_uchar.
    rewrite Z.mul_1_l, Nat2Z.id. auto 10.
  - apply update_inversion in Hop as (_ & -> & tex & _ & ->). solve_frame.
  - injection Hop as <- <-. solve_frame.
  - injection Hop as <- <-. solve_frame.
Qed.

Lemma run_ops_cons `{Runtime} op ops st st' :
  run_ops (op :: ops) st = Returns st' <->
  exists st1, run_op op st = Returns st1 /\ run_ops ops st1 = Returns st'.
Proof. cbn [run_ops]. apply bind_Returns. Qed.

Lemma run_ops_frame `{Runtime} ops : forall st st',
  run_ops ops st = Returns st' -> same_frame st st'.
Proof.
  induction ops as [|op ops IH]; intros st st' Hr.
  - injection Hr as <-. apply same_frame_refl.
  - apply run_ops_cons in Hr as (st1 & H1 & Hr).
    eapply same_frame_trans; [eapply run_op_frame; exact H1|now apply IH].
Qed.

(** Once set, the kernel pointer stays set. *)
Lemma run_op_kernel `{Runtime} op st st' :
  run_op op st = Returns st' ->
  is_Some (shaderKernel (fst st)) \/ (exists s, op = OpSetShader s) ->
  is_Some (shaderKernel (fst st')).
Proof.
  destruct st as [t o], st' as [t' o']. destruct op; cbn [run_op fst snd]; intros Hop Hk.
  - apply blank_Returns in Hop as (_ & -> & ->). destruct Hk as [Hk|[s [=]]]. exact Hk.
  - apply shade_inversion in Hop as (k & Hk' & _ & _ & _ & _ & -> & _). cbn. eauto.
  - apply update_inversion in Hop as (_ & _ & tex & _ & ->).
    destruct Hk as [Hk|[s [=]]]. exact Hk.
  - injection Hop as <- <-. destruct Hk as [Hk|[s [=]]]. exact Hk.
  - injection Hop as <- <-. cbn. eauto.
Qed.

Lemma run_ops_kernel `{Runtime} ops : forall st st',
  run_ops ops st = Returns st' ->
  is_Some (shaderKernel (fst st)) \/ (exists s, OpSetShader s ∈ ops) ->
  is_Some (shaderKernel (fst st')).
Proof.
  induction ops as [|op ops IH]; intros st st' Hr Hk.
  - injection Hr as <-. destruct Hk as [Hk|[s Hs]]; [exact Hk|inversion Hs].
  - apply run_ops_cons in Hr as (st1 & H1 & Hr).
    apply (IH st1 st' Hr).
    destruct Hk as [Hk|[s Hs]].
    + left. eapply run_op_kernel; eauto.
    + apply elem_of_cons in Hs as [<-|Hs]; [|right; eauto].
      left. eapply run_op_kernel; eauto.
Qed.

Lemma run_op_not_Exits `{Runtime} op st status : run_op op st <> Exits status.
Proof.
  destruct op; cbn [run_op]; try discriminate.
  - apply blank_not_Exits.
  - apply shade_not_Exits.
  - apply update_not_Exits.
Qed.

Lemma run_ops_Returns_or_Undefined `{Runtime} ops : forall st,
  (exists st', run_ops ops st = Returns st') \/ run_ops ops st = Undefined.
Proof.
  induction ops as [|op ops IH]; intros st; cbn [run_ops]; [eauto|].
  apply bind_Returns_or_Undefined; [apply run_op_Returns_or_Undefined|apply IH].
Qed.

Lemma run_ops_not_Exits `{Runtime} ops : forall st status, run_ops ops st <> Exits status.
Proof.
  induction ops as [|op ops IH]; intros st status; cbn [run_ops]; [discriminate|].
  apply bind_not_Exits; [apply run_op_not_Exits|apply IH].
Qed.


(** ** [readFile] and the constructor of [OCL] *)

Lemma readFile_readable `{Runtime} filepath :
  readable filepath -> readFile filepath = Returns (file_text filepath).
Proof.
  unfold readable, readFile, file_text. intros Hr.
  destruct (files !! filepath) as [[text|]|]; congruence.
Qed.

Lemma readFile_Unreadable `{Runtime} filepath :
  files !! filepath = Some Unreadable -> readFile filepath = Throws "std::ios_base::failure".
Proof. intros Hf. unfold readFile. now rewrite Hf. Qed.

Lemma readFile_cases `{Runtime} filepath :
  readable filepath \/ files !! filepath = Some Unreadable.
Proof.
  unfold readable. destruct (files !! filepath) as [[text|]|]; auto; left; discriminate.
Qed.

Lemma read_sources_readable `{Runtime} (kernelFiles : list string) : forall acc,
  Forall readable kernelFiles ->
  read_sources kernelFiles acc = Returns (acc ++ (file_text <$> kernelFiles)).
Proof.
  induction kernelFiles as [|f fs IH]; intros acc Hall; cbn [read_sources fmap list_fmap].
  - now rewrite app_nil_r.
  - apply Forall_cons in Hall as [Hf Hfs].
    rewrite (readFile_readable f Hf), bind_Returns_l, IH, <- app_assoc by assumption.
    reflexivity.
Qed.

Lemma read_sources_Unreadable `{Runtime} (kernelFiles : list string) : forall acc,
  Exists (fun f => files !! f = Some Unreadable) kernelFiles ->
  read_sources kernelFiles acc = Throws "std::ios_base::failure".
Proof.
  induction kernelFiles as [|f fs IH]; intros acc Hex; [inversion Hex|].
  cbn [read_sources]. destruct (readFile_cases f) as [Hf|Hf].
  - rewrite (readFile_readable f Hf), bind_Returns_l. apply IH.
    apply Exists_cons in Hex as [Hex|Hex]; [contradiction|exact Hex].
  - now rewrite (readFile_Unreadable f Hf).
Qed.

Lemma read_sources_cases `{Runtime} (kernelFiles : list string) :
  Forall readable kernelFiles \/
  Exists (fun f => files !! f = Some Unreadable) kernelFiles.
Proof.
  induction kernelFiles as [|f fs [IH|IH]].
  - left. constructor.
  - destruct (readFile_cases f); [left; now constructor|right; now constructor].
  - right. now apply Exists_cons_tl.
Qed.

(** The three ways the constructor ends. *)
Lemma OCL_ctor_cases `{Runtime} (kernelFiles : list string) :
  let device := getSemiIdealDevice platforms in
  let program := {| prog_context_devices := [device];
                    prog_sources := file_text <$> kernelFiles |} in
  (Exists (fun f => files !! f = Some Unreadable) kernelFiles /\
   OCL_ctor kernelFiles = (EmptyString, Throws "std::ios_base::failure")) \/
  (Forall readable kernelFiles /\
   clBuildProgram program [device] <> CL_SUCCESS /\
   OCL_ctor kernelFiles =
     (" Error building: " +:+ CL_PROGRAM_BUILD_LOG program device +:+ line_feed, Exits 1)) \/
  (Forall readable kernelFiles /\
   clBuildProgram program [device] = CL_SUCCESS /\
   OCL_ctor kernelFiles =
     (EmptyString,
      Returns {| device := device; sources := file_text <$> kernelFiles;
                 context := {| ctx_devices := [device]; next_mem := 1%positive;
                               memory := uninitialised |};
                 queue := {| pending := []; history := [] |};
                 program := program |})).
Proof.
  intros device program. unfold OCL_ctor.
  destruct (read_sources_cases kernelFiles) as [Hall|Hex].
  - rewrite (read_sources_readable kernelFiles [] Hall). cbn [app ctx_devices].
    fold device. fold program.
    destruct (decide (clBuildProgram program [device] ≠ CL_SUCCESS)) as [Hfail|Hok].
    + right. left. auto.
    + right. right. split; [exact Hall|]. split; [|reflexivity].
      destruct (decide (clBuildProgram program [device] = CL_SUCCESS)); [assumption|contradiction].
  - left. split; [exact Hex|]. now rewrite (read_sources_Unreadable kernelFiles [] Hex).
Qed.

Lemma OCL_ctor_Returns `{Runtime} (kernelFiles : list string) out o :
  OCL_ctor kernelFiles = (out, Returns o) ->
  out = EmptyString /\
  Forall readable kernelFiles /\
  o = {| device := getSemiIdealDevice platforms; sources := file_text <$> kernelFiles;
         context := {| ctx_devices := [getSemiIdealDevice platforms]; next_mem := 1%positive;
                       memory := uninitialised |};
         queue := {| pending := []; history := [] |};
         program := {| prog_context_devices := [getSemiIdealDevice platforms];
                       prog_sources := file_text <$> kernelFiles |} |}.
Proof.
  intros Ho. destruct (OCL_ctor_cases kernelFiles) as [[_ Hc]|[(_ & _ & Hc)|(Hall & _ & Hc)]];
    rewrite Hc in Ho; try discriminate.
  injection Ho as <- <-. auto.
Qed.


(** ** Kernel arguments *)

(** Arguments set at indices from [n] on leave those below [n] alone. *)
Lemma setArgs_lookup_below (extra : list (nat * KernelArg)) (n : nat) : forall (k : Kernel) (i : nat),
  Forall (fun a => (n <= fst a)%nat) extra -> (i < n)%nat ->
  kernel_args (setArgs k extra) !! i = kernel_args k !! i.
Proof.
  induction extra as [|[j v] extra IH]; intros k i Hextra Hi; [reflexivity|].
  apply Forall_cons in Hextra as [Hj Hextra]. cbn in Hj.
  unfold setArgs. cbn [fold_left fst snd]. fold (setArgs (setArg k j v) extra).
  rewrite IH by assumption. cbn. apply lookup_insert_ne. lia.
Qed.

(** ** The small machine *)

(** The two constructors and [setShader] make the example objects. *)
Example example_OCL_ctor :
  OCL_ctor (H := example_runtime) ["fill.cl"] = (EmptyString, Returns example_ocl0).
Proof. vm_compute. reflexivity. Qed.

Example example_SDL_ShaderTexture_ctor :
  SDL_ShaderTexture_ctor example_renderer example_ocl0 2 1
  = Returns (example_texture0, example_ocl).
Proof. vm_compute. reflexivity. Qed.

Example example_setShader :
  setShader "fill" example_texture0 example_ocl = Returns (example_texture, example_ocl).
Proof. vm_compute. reflexivity. Qed.

(** ** The claims on [SDL_ShaderTexture] and [OCL] *)

(** C2, as the specification states it, fails on the example texture:
    [shade] returns, and the second of its four calls, the dispatch of
    the kernel, did not block until completion: the kernel command was
    still to be waited for when [enqueueNDRangeKernel] returned. *)
Lemma shade_dispatch_not_blocking_counterexample :
  exists st',
    shade (H := example_runtime) example_texture example_ocl = Returns st' /\
    length (history (queue (snd st'))) = 4%nat /\
    ~ Forall blocked_until_completion (history (queue (snd st'))).
Proof.
  eexists. split; [vm_compute; reflexivity|]. split; [reflexivity|].
  cbn. intros HF.
  apply Forall_cons in HF as [_ HF]. apply Forall_cons in HF as [HF _].
  discriminate HF.
Qed.

(** C2, amended: on a texture whose kernel is set, [shade] returns
    having made exactly four calls on the queue, in this order: a
    blocking upload of the whole pixel array into the device buffer; the
    dispatch of the kernel over [rect.w * rect.h] work items, which does
    not block (the kernel command is left to be waited for); [finish],
    which blocks until the kernel has completed; and a blocking download
    of the whole buffer into the pixel array. The upload, the barrier and
    the download return with nothing left to wait for. *)
Theorem shade_call_sequence `{Runtime} (t : SDL_ShaderTexture) (o : OCL) (kernel : Kernel) :
  shaderKernel t = Some kernel ->
  in_int (SDL_Rect.w (rect t) * SDL_Rect.h (rect t)) = true ->
  let n := sizeof_uchar * Z.of_nat (length (pixels t)) in
  let items := NDRange1 (to_size_t (SDL_Rect.w (rect t) * SDL_Rect.h (rect t))) in
  exists t' o',
    shade t o = Returns (t', o') /\
    history (queue o') = history (queue o) ++
      [ {| call := EnqueueWriteBuffer (pixelBuffer t) CL_TRUE 0 n (pixels t);
           pending_at_return := [] |};
        {| call := EnqueueNDRangeKernel kernel NullRange items NullRange;
           pending_at_return := [NDRangeKernelCmd kernel NullRange items NullRange] |};
        {| call := Finish; pending_at_return := [] |};
        {| call := EnqueueReadBuffer (pixelBuffer t) CL_TRUE 0 n;
           pending_at_return := [] |} ] /\
    pending (queue o') = [] /\
    n = Z.of_nat (length (pixels t)) /\
    (0 <= SDL_Rect.w (rect t) * SDL_Rect.h (rect t) ->
     items = NDRange1 (SDL_Rect.w (rect t) * SDL_Rect.h (rect t))) /\
    memory (context o') =
      kernel_effect kernel NullRange items NullRange
        (store (buf_mem (pixelBuffer t)) 0 (pixels t)
           (fold_left complete (pending (queue o)) (memory (context o)))) /\
    pixels t' = load (buf_mem (pixelBuffer t)) 0 n (memory (context o')).
Proof.
  intros Hk Hin n items.
  destruct (shade_total t o kernel Hk Hin) as [[t' o'] Hs].
  exists t', o'. split; [exact Hs|].
  apply shade_inversion in Hs as (k & Hk' & _ & Hhist & Hpend & Hmem & Ht' & _).
  assert (k = kernel) as -> by congruence.
  split; [exact Hhist|]. split; [exact Hpend|].
  split; [unfold n, sizeof_uchar; lia|].
  split; [intros H0; unfold items; now rewrite to_size_t_nonneg|].
  split; [exact Hmem|]. rewrite Ht'. reflexivity.
Qed.

Lemma shade_call_sequence_witness :
  exists t' o',
    shade (H := example_runtime) example_texture example_ocl = Returns (t', o') /\
    pending (queue o') = [] /\
    pixels t' = replicate 8 Byte.xff.
Proof.
  destruct (shade_call_sequence (H := example_runtime) example_texture example_ocl example_kernel)
    as (t' & o' & Hs & _ & Hpend & _ & _ & Hmem & Hpx);
    [reflexivity|reflexivity|].
  exists t', o'. split; [exact Hs|]. split; [exact Hpend|].
  rewrite Hpx, Hmem. vm_compute. reflexivity.
Defined.

(** C3: [setShader] returns with a new kernel whose argument 0 is the
    pixel buffer, argument 1 the width and argument 2 the height of the
    texture; arguments set afterwards at indices from 3 on leave these
    three bindings as they are. *)
Theorem setShader_first_three_arguments (shader : string) (t : SDL_ShaderTexture) (o : OCL) :
  exists t' kernel,
    setShader shader t o = Returns (t', o) /\
    shaderKernel t' = Some kernel /\
    pixelBuffer t' = pixelBuffer t /\ rect t' = rect t /\
    kernel_args kernel !! 0%nat = Some (ArgMem (buf_mem (pixelBuffer t'))) /\
    kernel_args kernel !! 1%nat = Some (ArgInt (SDL_Rect.w (rect t'))) /\
    kernel_args kernel !! 2%nat = Some (ArgInt (SDL_Rect.h (rect t'))) /\
    forall extra : list (nat * KernelArg),
      Forall (fun a => (3 <= fst a)%nat) extra ->
      kernel_args (setArgs kernel extra) !! 0%nat = Some (ArgMem (buf_mem (pixelBuffer t'))) /\
      kernel_args (setArgs kernel extra) !! 1%nat = Some (ArgInt (SDL_Rect.w (rect t'))) /\
      kernel_args (setArgs kernel extra) !! 2%nat = Some (ArgInt (SDL_Rect.h (rect t'))).
Proof.
  eexists _, _. split; [reflexivity|]. cbn.
  split; [reflexivity|]. split; [reflexivity|]. split; [reflexivity|].
  split; [now simplify_map_eq|]. split; [now simplify_map_eq|]. split; [now simplify_map_eq|].
  intros extra Hextra.
  rewrite !(setArgs_lookup_below extra 3) by (assumption || lia). cbn.
  repeat split; now simplify_map_eq.
Qed.

Lemma setShader_first_three_arguments_witness :
  exists t' kernel,
    setShader "fill" example_texture example_ocl = Returns (t', example_ocl) /\
    shaderKernel t' = Some kernel /\
    let kernel' := setArgs kernel [(3%nat, ArgInt 255); (4%nat, ArgMem 9%positive);
                                   (3%nat, ArgInt 0)] in
    kernel_args kernel' !! 0%nat = Some (ArgMem 1%positive) /\
    kernel_args kernel' !! 1%nat = Some (ArgInt 2) /\
    kernel_args kernel' !! 2%nat = Some (ArgInt 1) /\
    kernel_args kernel' !! 3%nat = Some (ArgInt 0).
Proof.
  destruct (setShader_first_three_arguments "fill" example_texture example_ocl)
    as (t' & kernel & Hs & Hk & Hbuf & Hrect & _ & _ & _ & Hextra).
  exists t', kernel. split; [exact Hs|]. split; [exact Hk|]. cbv zeta.
  destruct (Hextra [(3%nat, ArgInt 255); (4%nat, ArgMem 9%positive); (3%nat, ArgInt 0)])
    as (H0 & H1 & H2).
  { repeat constructor. }
  rewrite H0, H1, H2, Hbuf, Hrect.
  split; [reflexivity|]. split; [reflexivity|]. split; [reflexivity|].
  injection Hs as <-. injection Hk as <-. reflexivity.
Defined.




(** C5: the constructor creates the device buffer with the size in bytes
    of the pixel array, and any sequence of [blank], [shade], [update],
    [setShader] and [setBlendMode] keeps the sizes equal: the buffer is
    the same object (never made again) and the pixel array has the same
    size (never resized). *)
Theorem buffer_size_invariant `{Runtime} :
  (forall renderer o width height t o',
     SDL_ShaderTexture_ctor renderer o width height = Returns (t, o') ->
     buffer_matches t) /\
  (forall ops st st',
     run_ops ops st = Returns st' ->
     pixelBuffer (fst st') = pixelBuffer (fst st) /\
     length (pixels (fst st')) = length (pixels (fst st)) /\
     (buffer_matches (fst st) -> buffer_matches (fst st'))).
Proof.
  split.
  - intros renderer o width height t o' Hc.
    apply SDL_ShaderTexture_ctor_inversion in Hc as (_ & _ & _ & _ & _ & _ & Hbuf & _).
    unfold buffer_matches. now rewrite Hbuf.
  - intros ops st st' Hr. apply run_ops_frame in Hr as (_ & Hb & Hl & _).
    split; [exact Hb|]. split; [exact Hl|].
    unfold buffer_matches. now rewrite Hb, Hl.
Qed.

Lemma buffer_size_invariant_witness :
  buffer_matches example_texture0 /\
  exists st',
    run_ops (H := example_runtime)
      [OpSetShader "fill"; OpShade; OpBlank; OpUpdate; OpSetBlendMode SDL_BLENDMODE_ADD; OpShade]
      (example_texture0, example_ocl) = Returns st' /\
    pixelBuffer (fst st') = pixelBuffer example_texture0 /\
    length (pixels (fst st')) = 8%nat /\
    buffer_matches (fst st').
Proof.
  destruct (buffer_size_invariant (H := example_runtime)) as [Hctor Hops].
  assert (buffer_matches example_texture0) as Hm.
  { apply (Hctor example_renderer example_ocl0 2 1 example_texture0 example_ocl).
    vm_compute. reflexivity. }
  split; [exact Hm|].
  destruct (run_ops (H := example_runtime)
              [OpSetShader "fill"; OpShade; OpBlank; OpUpdate;
               OpSetBlendMode SDL_BLENDMODE_ADD; OpShade]
              (example_texture0, example_ocl)) as [st'| | |] eqn:Hr;
    [|vm_compute in Hr; discriminate Hr..].
  destruct (Hops _ _ _ Hr) as (Hb & Hl & Hm').
  exists st'. split; [reflexivity|]. split; [exact Hb|]. split; [exact Hl|]. exact (Hm' Hm).
Defined.

(** C6: on a freshly constructed object the kernel pointer is null and
    [shade] dereferences it; after any sequence of calls that contains a
    [setShader] the pointer is not null and [shade] returns. *)
Theorem shade_needs_shader `{Runtime} (renderer : SDL_Renderer) (o : OCL) (width height : Z)
    (t : SDL_ShaderTexture) (o' : OCL) :
  SDL_ShaderTexture_ctor renderer o width height = Returns (t, o') ->
  shaderKernel t = None /\
  shade t o' = Undefined /\
  forall ops st',
    run_ops ops (t, o') = Returns st' ->
    (exists s, OpSetShader s ∈ ops) ->
    exists kernel st'',
      shaderKernel (fst st') = Some kernel /\
      shade (fst st') (snd st') = Returns st''.
Proof.
  intros Hc. apply SDL_ShaderTexture_ctor_inversion in Hc
    as (Hwh & _ & _ & _ & _ & Hrect & _ & Hk & _).
  split; [exact Hk|]. split; [now apply shade_no_kernel|].
  intros ops st' Hr Hs.
  destruct (run_ops_kernel ops _ _ Hr (or_intror Hs)) as [kernel Hkernel].
  apply run_ops_frame in Hr as (Hrect' & _). cbn [fst] in Hrect'.
  destruct (shade_total (fst st') (snd st') kernel Hkernel) as [st'' Hst''].
  { rewrite Hrect', Hrect. exact Hwh. }
  eauto.
Qed.

Lemma shade_needs_shader_witness :
  shade (H := example_runtime) example_texture0 example_ocl = Undefined /\
  exists st' kernel st'',
    run_ops (H := example_runtime) [OpBlank; OpSetShader "fill"; OpUpdate]
      (example_texture0, example_ocl) = Returns st' /\
    shaderKernel (fst st') = Some kernel /\
    shade (H := example_runtime) (fst st') (snd st') = Returns st''.
Proof.
  assert (SDL_ShaderTexture_ctor example_renderer example_ocl0 2 1
          = Returns (example_texture0, example_ocl)) as Hc by (vm_compute; reflexivity).
  destruct (shade_needs_shader (H := example_runtime) _ _ _ _ _ _ Hc) as (_ & Hu & Hops).
  split; [exact Hu|].
  destruct (Hops [OpBlank; OpSetShader "fill"; OpUpdate]
              (with_texture example_texture example_texture.(texture), example_ocl))
    as (kernel & st'' & Hk & Hs).
  - vm_compute. reflexivity.
  - exists "fill". apply list_elem_of_further, list_elem_of_here.
  - eexists _, kernel, st''. split; [vm_compute; reflexivity|]. split; [exact Hk|exact Hs].
Defined.

Lemma SDL_CreateTexture_Some renderer format access w h tex :
  SDL_CreateTexture renderer format access w h = Some tex ->
  tex_w tex = w /\ tex_h tex = h /\ 0 < w /\ 0 < h.
Proof.
  unfold SDL_CreateTexture.
  destruct (Z.leb_spec w 0); destruct (Z.leb_spec h 0); cbn [orb]; try discriminate.
  destruct (_ || _); [discriminate|]. intros [= <-]. cbn. auto.
Qed.

(** C7: the pixel array the constructor makes has [width * height * 4]
    bytes, and the four bytes of a pixel are, in this order, its blue,
    green, red and alpha channel: that is how [update] hands them to the
    [ARGB8888] texture (on a little-endian host), whatever the bytes are.
    The constructor returns whenever the products it computes are in
    [int] and the size is not negative. *)
Theorem pixel_array_layout (renderer : SDL_Renderer) (o : OCL) (width height : Z) :
  (forall t o',
     SDL_ShaderTexture_ctor renderer o width height = Returns (t, o') ->
     Z.of_nat (length (pixels t)) = width * height * 4 /\
     forall px tex,
       length px = length (pixels t) ->
       texture t = Some tex ->
       exists t2 tex2,
         update (with_pixels t px) o' = Returns (t2, o') /\
         texture t2 = Some tex2 /\
         forall x y, 0 <= x < width -> 0 <= y < height ->
           exists p b0 b1 b2 b3,
             texel tex2 x y = Some p /\
             px !! Z.to_nat (4 * (y * width + x)) = Some b0 /\
             px !! Z.to_nat (4 * (y * width + x) + 1) = Some b1 /\
             px !! Z.to_nat (4 * (y * width + x) + 2) = Some b2 /\
             px !! Z.to_nat (4 * (y * width + x) + 3) = Some b3 /\
             ARGB8888_blue p = uchar b0 /\
             ARGB8888_green p = uchar b1 /\
             ARGB8888_red p = uchar b2 /\
             ARGB8888_alpha p = uchar b3) /\
  (in_int (width * height) = true ->
   in_int (width * height * 4) = true ->
   in_int (width * 4) = true ->
   0 <= width * height * 4 ->
   exists t o', SDL_ShaderTexture_ctor renderer o width height = Returns (t, o')).
Proof.
  split; [|apply SDL_ShaderTexture_ctor_total].
  intros t o' Hc. apply SDL_ShaderTexture_ctor_inversion in Hc
    as (_ & _ & H0 & Hpitch & Hpx & Hrect & _ & _ & Htex & _).
  assert (Z.of_nat (length (pixels t)) = width * height * 4) as Hlen.
  { rewrite Hpx, length_replicate. lia. }
  split; [exact Hlen|].
  intros px tex Hpxlen Ht.
  destruct (SDL_CreateTexture renderer SDL_PIXELFORMAT_ARGB8888 SDL_TEXTUREACCESS_STREAMING
              width height) as [tex0|] eqn:Hcreate; [|cbn in Htex; congruence].
  apply SDL_CreateTexture_Some in Hcreate as (Hw0 & Hh0 & Hwpos & Hhpos).
  assert (width * 4 <> 0) as Hpitch0 by lia.
  apply (SDL_UpdateTexture_Some _ _ _ _ Hpitch0) in Htex as (tex' & Htex' & Hw & Hh & _).
  assert (tex' = tex) as -> by congruence.
  assert (tex_w tex = width) as Htw by congruence.
  assert (tex_h tex = height) as Hth by congruence.
  destruct (SDL_UpdateTexture_total tex px) as [r Hr]; [lia|lia|rewrite Htw, Hth; lia|].
  rewrite Htw in Hr.
  destruct (SDL_UpdateTexture_Some _ _ _ _ Hpitch0 Hr) as (tex2 & -> & _ & _ & Htexel).
  exists (with_texture (with_pixels t px) (Some tex2)), tex2.
  split.
  { apply update_inversion. cbn [with_pixels rect texture pixels]. rewrite Hrect. cbn [SDL_Rect.w].
    split; [exact Hpitch|]. split; [reflexivity|]. exists (Some tex2).
    rewrite Ht. auto. }
  split; [reflexivity|].
  intros x y Hx Hy.
  destruct (Htexel x y) as (p & Hp & Hload); [lia|lia|].
  destruct (load32_in_bounds px (y * (width * 4) + 4 * x))
    as (b0 & b1 & b2 & b3 & E0 & E1 & E2 & E3 & Hload'); [nia|nia|].
  assert (p = le32 b0 b1 b2 b3) as -> by congruence.
  replace (y * (width * 4) + 4 * x) with (4 * (y * width + x)) in E0, E1, E2, E3 by lia.
  exists (le32 b0 b1 b2 b3), b0, b1, b2, b3.
  pose proof (le32_channels b0 b1 b2 b3) as (Cb & Cg & Cr & Ca).
  repeat split; assumption.
Qed.

Lemma pixel_array_layout_witness :
  Z.of_nat (length (pixels example_texture0)) = 2 * 1 * 4 /\
  (exists t2 tex2 p,
     update (with_pixels example_texture0
               [Byte.x10; Byte.x20; Byte.x30; Byte.x40; Byte.x50; Byte.x60; Byte.x70; Byte.x80])
            example_ocl = Returns (t2, example_ocl) /\
     texture t2 = Some tex2 /\
     texel tex2 1 0 = Some p /\
     ARGB8888_blue p = 80 /\ ARGB8888_green p = 96 /\
     ARGB8888_red p = 112 /\ ARGB8888_alpha p = 128) /\
  exists t o', SDL_ShaderTexture_ctor example_renderer example_ocl0 2 1 = Returns (t, o').
Proof.
  pose proof (pixel_array_layout example_renderer example_ocl0 2 1) as [Hlayout Hreturns].
  destruct (Hlayout example_texture0 example_ocl) as [Hlen Hpx]; [vm_compute; reflexivity|].
  split; [exact Hlen|]. split.
  - destruct (Hpx [Byte.x10; Byte.x20; Byte.x30; Byte.x40; Byte.x50; Byte.x60; Byte.x70; Byte.x80]
                  {| tex_format := SDL_PIXELFORMAT_ARGB8888;
                     tex_access := SDL_TEXTUREACCESS_STREAMING;
                     tex_w := 2; tex_h := 1; tex_rows := Some [[0; 0]]; tex_blend := None |})
      as (t2 & tex2 & Hu & Ht2 & Htexel); [reflexivity|reflexivity|].
    destruct (Htexel 1 0) as (p & b0 & b1 & b2 & b3 & Hp & E0 & E1 & E2 & E3 & Cb & Cg & Cr & Ca);
      [lia|lia|].
    cbn in E0, E1, E2, E3.
    injection E0 as <-. injection E1 as <-. injection E2 as <-. injection E3 as <-.
    exists t2, tex2, p. repeat split; assumption.
  - apply Hreturns; [reflexivity|reflexivity|reflexivity|lia].
Defined.

(** C8: the constructor of [OCL] sets [device] to the device that
    [getSemiIdealDevice] chose, and neither the constructor of
    [SDL_ShaderTexture] nor any sequence of its member functions changes
    the [device] of the [OCL] object it works on. *)
Theorem device_chosen_once `{Runtime} :
  (forall kernelFiles out o,
     OCL_ctor kernelFiles = (out, Returns o) -> device o = getSemiIdealDevice platforms) /\
  (forall renderer o width height t o',
     SDL_ShaderTexture_ctor renderer o width height = Returns (t, o') -> device o' = device o) /\
  (forall ops st st',
     run_ops ops st = Returns st' -> device (snd st') = device (snd st)).
Proof.
  split; [|split].
  - intros kernelFiles out o Ho. apply OCL_ctor_Returns in Ho as (_ & _ & ->). reflexivity.
  - intros renderer o width height t o' Hc.
    now apply SDL_ShaderTexture_ctor_inversion in Hc as (_ & _ & _ & _ & _ & _ & _ & _ & _ & Hd & _).
  - intros ops st st' Hr. now apply run_ops_frame in Hr as (_ & _ & _ & Hd & _).
Qed.

Lemma device_chosen_once_witness :
  device example_ocl0 = Some example_gpu /\
  device example_ocl = device example_ocl0 /\
  exists st',
    run_ops (H := example_runtime) [OpSetShader "fill"; OpShade; OpBlank; OpShade; OpUpdate]
      (example_texture0, example_ocl) = Returns st' /\
    device (snd st') = device example_ocl.
Proof.
  destruct (device_chosen_once (H := example_runtime)) as (Hocl & Hctor & Hops).
  split; [|split].
  - rewrite (Hocl ["fill.cl"] EmptyString example_ocl0); [|vm_compute; reflexivity].
    vm_compute. reflexivity.
  - apply (Hctor example_renderer example_ocl0 2 1 example_texture0). vm_compute. reflexivity.
  - eexists. split; [vm_compute; reflexivity|].
    apply (Hops [OpSetShader "fill"; OpShade; OpBlank; OpShade; OpUpdate]
                (example_texture0, example_ocl)).
    vm_compute. reflexivity.
Defined.

(** C9: the pixel array the constructor makes is all zero; on a pixel
    array that is not empty [blank] returns with every byte zero and the
    size as it was, whatever the contents were; and after any sequence
    of calls on a constructed texture that has pixels, [blank] gives back
    the pixel array the constructor made. (On an empty pixel array
    [blank] evaluates [pixels[0]], which is undefined: the pixel array
    is taken not to be empty.) *)
Theorem pixels_zero_after_ctor_and_blank `{Runtime} (renderer : SDL_Renderer) (o : OCL)
    (width height : Z) :
  (forall t o',
     SDL_ShaderTexture_ctor renderer o width height = Returns (t, o') ->
     Forall (fun b => b = Byte.x00) (pixels t) /\
     forall ops st',
       run_ops ops (t, o') = Returns st' ->
       width * height <> 0 ->
       exists t'', blank (fst st') (snd st') = Returns (t'', snd st') /\
                   pixels t'' = pixels t) /\
  (forall t o1,
     pixels t <> [] ->
     exists t', blank t o1 = Returns (t', o1) /\
                Forall (fun b => b = Byte.x00) (pixels t') /\
                length (pixels t') = length (pixels t)) /\
  (in_int (width * height) = true ->
   in_int (width * height * 4) = true ->
   in_int (width * 4) = true ->
   0 <= width * height * 4 ->
   exists t o', SDL_ShaderTexture_ctor renderer o width height = Returns (t, o')).
Proof.
  split; [|split; [|apply SDL_ShaderTexture_ctor_total]].
  - intros t o' Hc. apply SDL_ShaderTexture_ctor_inversion in Hc
      as (_ & _ & H0 & _ & Hpx & _).
    split.
    + rewrite Hpx. apply Forall_replicate. reflexivity.
    + intros ops st' Hr Hnz. apply run_ops_frame in Hr as (_ & _ & Hlen & _). cbn [fst] in Hlen.
      eexists. split.
      * apply blank_Returns. split; [|split; reflexivity].
        intros Hnil. rewrite Hnil, Hpx, length_replicate in Hlen. cbn in Hlen. lia.
      * cbn [with_pixels pixels]. rewrite Hlen, Hpx, length_replicate. reflexivity.
  - intros t o1 Hne. eexists. split; [apply blank_Returns; auto|].
    cbn [with_pixels pixels].
    split; [apply Forall_replicate; reflexivity|apply length_replicate].
Qed.

Lemma pixels_zero_after_ctor_and_blank_witness :
  Forall (fun b => b = Byte.x00) (pixels example_texture0) /\
  (exists st' t'',
     run_ops (H := example_runtime) [OpSetShader "fill"; OpShade]
       (example_texture0, example_ocl) = Returns st' /\
     pixels (fst st') = replicate 8 Byte.xff /\
     blank (fst st') (snd st') = Returns (t'', snd st') /\
     pixels t'' = pixels example_texture0) /\
  (exists t', blank example_texture example_ocl = Returns (t', example_ocl)) /\
  exists t o', SDL_ShaderTexture_ctor example_renderer example_ocl0 2 1 = Returns (t, o').
Proof.
  destruct (pixels_zero_after_ctor_and_blank (H := example_runtime)
              example_renderer example_ocl0 2 1) as (Hctor & Hany & Hreturns).
  destruct (Hctor example_texture0 example_ocl) as [Hzero Hblank]; [vm_compute; reflexivity|].
  split; [exact Hzero|]. split; [|split].
  - assert (exists st', run_ops (H := example_runtime) [OpSetShader "fill"; OpShade]
                          (example_texture0, example_ocl) = Returns st' /\
                        pixels (fst st') = replicate 8 Byte.xff) as (st' & Hr & Hff).
    { eexists. split; vm_compute; reflexivity. }
    destruct (Hblank _ _ Hr) as (t'' & Hb & Hpx); [lia|].
    exists st', t''. auto.
  - destruct (Hany example_texture example_ocl) as (t' & Hb & _); [discriminate|].
    exists t'. exact Hb.
  - apply Hreturns; [reflexivity|reflexivity|reflexivity|lia].
Defined.

(** * Further properties of the header *)

(** ** [getSemiIdealDevice] *)

Lemma visit_fold_best_score (l : list cl_device) :
  exists best, fold_left visit l (None, 0) = (best, best_score best).
Proof.
  destruct (visit_scan l None 0) as [[Heq _] | (d & Heq & _)].
  - exists None. exact Heq.
  - exists (Some d). exact Heq.
Qed.

Lemma getSemiIdealDevice_fold platforms :
  fold_left visit (enumerate platforms) (None, 0)
  = (getSemiIdealDevice platforms, best_score (getSemiIdealDevice platforms)).
Proof.
  unfold getSemiIdealDevice. rewrite visit_platforms_concat.
  destruct (visit_fold_best_score (enumerate platforms)) as [best Hbest].
  etransitivity; [exact Hbest|].
  change (fold_left visit (enumerate platforms) (None, 0)) with
    (fold_left visit (enumerate platforms) (None : Device, 0)) in Hbest.
  cbv zeta. rewrite Hbest. reflexivity.
Qed.

(** X1: the choice depends on the enumeration order alone, not on how
    the devices are grouped into platforms; platforms without devices
    do not matter. *)
Theorem getSemiIdealDevice_regroup (platforms platforms' : list Platform) :
  enumerate platforms = enumerate platforms' ->
  getSemiIdealDevice platforms = getSemiIdealDevice platforms'.
Proof.
  intros He. unfold getSemiIdealDevice. rewrite !visit_platforms_concat, He. reflexivity.
Qed.

Lemma getSemiIdealDevice_regroup_witness :
  getSemiIdealDevice [[example_cpu]; []; [example_gpu; example_cpu]]
  = getSemiIdealDevice [[]; [example_cpu; example_gpu]; [example_cpu]; []].
Proof. apply getSemiIdealDevice_regroup. reflexivity. Defined.

(** X2: a device enumerated after all the others replaces the choice
    made so far exactly when its score is strictly higher than the score
    of that choice (than 0 when nothing was chosen); on a tie the earlier
    device stays. *)
Theorem getSemiIdealDevice_append_device (platforms : list Platform) (d : cl_device) :
  getSemiIdealDevice (platforms ++ [[d]]) =
    if score d >? best_score (getSemiIdealDevice platforms)
    then Some d
    else getSemiIdealDevice platforms.
Proof.
  unfold getSemiIdealDevice at 1. rewrite visit_platforms_concat.
  unfold enumerate. rewrite concat_app. cbn [concat app].
  rewrite fold_left_app. fold (enumerate platforms). rewrite getSemiIdealDevice_fold.
  cbn [fold_left visit]. destruct (score d >? _); reflexivity.
Qed.

Lemma first_highest_unique l d d' :
  first_highest l d -> first_highest l d' -> d = d'.
Proof.
  intros (b & a & Hl & Hb & Ha) (b' & a' & Hl' & Hb' & Ha').
  rewrite Hl in Hl'. apply app_eq_app in Hl' as [m [[-> Hm] | [-> Hm]]].
  - destruct m as [|x m]; cbn in Hm.
    + congruence.
    + injection Hm as <- ->.
      assert (score d' < score d) by (apply Hb, elem_of_app; right; left).
      assert (score d <= score d') by (apply Ha', elem_of_app; right; left). lia.
  - destruct m as [|x m]; cbn in Hm.
    + congruence.
    + injection Hm as <- ->.
      assert (score d < score d') by (apply Hb', elem_of_app; right; left).
      assert (score d' <= score d) by (apply Ha, elem_of_app; right; left). lia.
Qed.

(** X3: the device returned is characterised exactly: [d] is returned if
    and only if its score is not 0 and it is the first device of highest
    score in enumeration order. *)
Theorem getSemiIdealDevice_characterised (platforms : list Platform) (d : cl_device) :
  getSemiIdealDevice platforms = Some d <->
  score d <> 0 /\ first_highest (enumerate platforms) d.
Proof.
  destruct (getSemiIdealDevice_scan platforms) as [[Hnone Hall] | (d0 & Hd0 & Hpos & Hfirst)].
  - rewrite Hnone. split; [discriminate|].
    intros [Hnz Hf]. apply first_highest_elem in Hf. specialize (Hall d Hf). contradiction.
  - rewrite Hd0. split.
    + intros [= <-]. split; [lia|exact Hfirst].
    + intros [_ Hf]. f_equal. eapply first_highest_unique; eassumption.
Qed.

(** X4: when no product of compute units and clock frequency overflows
    [unsigned int] and some product is not 0, the device returned has
    the highest exact product, and every device enumerated before it has
    a strictly lower one. *)
Theorem getSemiIdealDevice_exact_product (platforms : list Platform) :
  (forall x, x ∈ enumerate platforms -> 0 <= exact_product x < UINT_MODULUS) ->
  (exists x, x ∈ enumerate platforms /\ exact_product x <> 0) ->
  exists d before after,
    getSemiIdealDevice platforms = Some d /\
    enumerate platforms = before ++ d :: after /\
    (forall x, x ∈ before -> exact_product x < exact_product d) /\
    (forall x, x ∈ after -> exact_product x <= exact_product d).
Proof.
  intros Hfit (x & Hx & Hnz).
  assert (forall y, y ∈ enumerate platforms -> score y = exact_product y) as Hscore.
  { intros y Hy. apply score_exact. now apply Hfit. }
  destruct (getSemiIdealDevice_scan platforms)
    as [[_ Hall] | (d & Hd & _ & b & a & Hl & Hb & Ha)].
  - exfalso. apply Hnz. rewrite <- Hscore by assumption. now apply Hall.
  - exists d, b, a. split; [exact Hd|]. split; [exact Hl|].
    assert (d ∈ enumerate platforms) as Hdin.
    { rewrite Hl. apply elem_of_app. right. left. }
    split; intros y Hy.
    + rewrite <- (Hscore d Hdin), <- (Hscore y); [now apply Hb|].
      rewrite Hl. apply elem_of_app. now left.
    + rewrite <- (Hscore d Hdin), <- (Hscore y); [now apply Ha|].
      rewrite Hl. apply elem_of_app. right. now right.
Qed.

Lemma getSemiIdealDevice_exact_product_witness :
  exists d before after,
    getSemiIdealDevice [[example_cpu]; [example_gpu; example_gpu]] = Some d /\
    enumerate [[example_cpu]; [example_gpu; example_gpu]] = before ++ d :: after /\
    (forall x, x ∈ before -> exact_product x < exact_product d) /\
    (forall x, x ∈ after -> exact_product x <= exact_product d).
Proof.
  apply getSemiIdealDevice_exact_product.
  - intros x Hx. cbn in Hx.
    repeat (apply elem_of_cons in Hx as [->|Hx];
            [unfold exact_product, UINT_MODULUS; cbn; lia|]).
    inversion Hx.
  - exists example_gpu. split; [right; left|vm_compute; discriminate].
Defined.

Lemma getSemiIdealDevice_characterised_witness :
  getSemiIdealDevice [[example_cpu]; [example_gpu; example_gpu]] = Some example_gpu.
Proof.
  apply (proj2 (getSemiIdealDevice_characterised _ example_gpu)).
  split; [vm_compute; discriminate|].
  exists [example_cpu], [example_gpu]. split; [reflexivity|].
  split; intros x Hx; apply elem_of_cons in Hx as [->|Hx];
    try (inversion Hx; fail); vm_compute; congruence.
Defined.

(** ** [OCL::OCL] and [readFile] *)

(** X5: a kernel path that cannot be opened is no error: when no
    kernel path fails in reading and the build succeeds, the constructor
    returns, and the object holds one source per kernel file, in the
    order of the files, each the contents of its file and the empty
    string for a path that cannot be opened; the program was made from
    these sources. An object that the constructor returns always holds
    these sources, and no kernel path failed in reading. *)
Theorem OCL_ctor_sources `{Runtime} (kernelFiles : list string) :
  (Forall readable kernelFiles ->
   clBuildProgram {| prog_context_devices := [getSemiIdealDevice platforms];
                     prog_sources := file_text <$> kernelFiles |}
                  [getSemiIdealDevice platforms] = CL_SUCCESS ->
   exists o, OCL_ctor kernelFiles = (EmptyString, Returns o)) /\
  (forall out o,
     OCL_ctor kernelFiles = (out, Returns o) ->
     Forall readable kernelFiles /\
     prog_sources (program o) = sources o /\
     length (sources o) = length kernelFiles /\
     (forall i filepath text,
        kernelFiles !! i = Some filepath -> files !! filepath = Some (Contents text) ->
        sources o !! i = Some text) /\
     (forall i filepath,
        kernelFiles !! i = Some filepath -> files !! filepath = None ->
        sources o !! i = Some EmptyString)).
Proof.
  split.
  - intros Hall Hok.
    destruct (OCL_ctor_cases kernelFiles) as [[Hex _]|[(_ & Hfail & _)|(_ & _ & Hc)]].
    + exfalso. apply Exists_exists in Hex as (f & Hf & Hu).
      rewrite Forall_forall in Hall. now apply (Hall f Hf).
    + contradiction.
    + eauto.
  - intros out o Ho. apply OCL_ctor_Returns in Ho as (_ & Hall & ->).
    cbn [sources program prog_sources].
    split; [exact Hall|]. split; [reflexivity|]. split; [apply length_fmap|].
    split.
    + intros i filepath text Hi Hf. rewrite list_lookup_fmap, Hi. cbn.
      unfold file_text. now rewrite Hf.
    + intros i filepath Hi Hf. rewrite list_lookup_fmap, Hi. cbn.
      unfold file_text. now rewrite Hf.
Qed.

Lemma OCL_ctor_sources_witness :
  exists o,
    OCL_ctor (H := lenient_runtime) ["missing.cl"; "fill.cl"] = (EmptyString, Returns o) /\
    sources o !! 0%nat = Some EmptyString /\
    sources o !! 1%nat = Some example_source.
Proof.
  destruct (OCL_ctor_sources (H := lenient_runtime) ["missing.cl"; "fill.cl"])
    as [Hreturns Hsources].
  destruct Hreturns as [o Ho].
  - repeat constructor; vm_compute; discriminate.
  - reflexivity.
  - destruct (Hsources EmptyString o Ho) as (_ & _ & _ & Htext & Hnone).
    exists o. split; [exact Ho|]. split.
    + apply (Hnone 0%nat "missing.cl"); reflexivity.
    + apply (Htext 1%nat "fill.cl"); reflexivity.
Defined.

(** ** The shape of a texture *)

Lemma SDL_UpdateTexture_shape texture px pitch r :
  SDL_UpdateTexture texture px pitch = Returns r ->
  match texture, r with
  | None, None => True
  | Some tex, Some tex' =>
      tex_w tex' = tex_w tex /\ tex_h tex' = tex_h tex /\
      tex_format tex' = tex_format tex /\ tex_access tex' = tex_access tex /\
      tex_blend tex' = tex_blend tex
  | _, _ => False
  end.
Proof.
  destruct texture as [tex|]; cbn.
  - destruct (pitch =? 0).
    + intros [= <-]. auto.
    + intros Hr. apply bind_Returns in Hr as (rows & _ & [= <-]). cbn. auto.
  - intros [= <-]. exact I.
Qed.

Lemma SDL_ShaderTexture_ctor_well_formed renderer o width height t o' :
  SDL_ShaderTexture_ctor renderer o width height = Returns (t, o') ->
  well_formed width height t.
Proof.
  intros Hc. apply SDL_ShaderTexture_ctor_inversion in Hc
    as (Hwh & _ & H0 & Hpitch & Hpx & Hrect & _ & _ & Htex & _).
  unfold well_formed. split; [exact Hrect|]. split; [exact Hwh|]. split; [exact Hpitch|].
  split; [rewrite Hpx, length_replicate; lia|].
  apply SDL_UpdateTexture_shape in Htex.
  destruct (SDL_CreateTexture _ _ _ _ _) as [tex0|] eqn:Hcreate;
    destruct (texture t) as [tex|]; try contradiction; [|exact I].
  apply SDL_CreateTexture_Some in Hcreate as (Hw0 & Hh0 & Hwpos & Hhpos).
  destruct Htex as (Hw & Hh & _). repeat split; congruence || assumption.
Qed.

Lemma run_op_well_formed `{Runtime} width height op st st' :
  run_op op st = Returns st' ->
  well_formed width height (fst st) -> well_formed width height (fst st').
Proof.
  destruct st as [t o], st' as [t' o']. cbn [fst].
  intros Hop (Hrect & Hwh & Hpitch & Hlen & Htex).
  pose proof (run_op_frame _ _ _ Hop) as (Hrect' & _ & Hlen' & _). cbn [fst] in Hrect', Hlen'.
  unfold well_formed. rewrite Hrect', Hlen'.
  split; [exact Hrect|]. split; [exact Hwh|]. split; [exact Hpitch|]. split; [exact Hlen|].
  destruct op; cbn [run_op fst snd] in Hop.
  - apply blank_Returns in Hop as (_ & -> & ->). exact Htex.
  - apply shade_inversion in Hop as (k & _ & _ & _ & _ & _ & -> & _). exact Htex.
  - apply update_inversion in Hop as (_ & _ & tex' & Hu & ->). cbn [with_texture texture].
    apply SDL_UpdateTexture_shape in Hu.
    destruct (texture t) as [tex|]; destruct tex' as [tex'|]; try contradiction; [|exact I].
    destruct Hu as (Hw & Hh & _). rewrite Hw, Hh. exact Htex.
  - injection Hop as <- <-. cbn [with_texture texture].
    destruct (texture t) as [tex|]; [|exact I]. exact Htex.
  - injection Hop as <- <-. exact Htex.
Qed.

Lemma run_ops_well_formed `{Runtime} width height ops : forall st st',
  run_ops ops st = Returns st' ->
  well_formed width height (fst st) -> well_formed width height (fst st').
Proof.
  induction ops as [|op ops IH]; intros st st' Hr Hwf.
  - injection Hr as <-. exact Hwf.
  - apply run_ops_cons in Hr as (st1 & H1 & Hr).
    eapply IH; [exact Hr|]. eapply run_op_well_formed; eassumption.
Qed.

(** On a texture of that shape [update] reads inside the pixel array. *)
Lemma update_total_well_formed width height t o :
  well_formed width height t -> exists t', update t o = Returns (t', o).
Proof.
  intros (Hrect & Hwh & Hpitch & Hlen & Htex).
  assert (exists r, SDL_UpdateTexture (texture t) (pixels t) (SDL_Rect.w (rect t) * 4)
                    = Returns r) as [r Hr].
  { rewrite Hrect. cbn [SDL_Rect.w]. destruct (texture t) as [tex|]; [|eexists; reflexivity].
    destruct Htex as (Hw & Hh & Hwpos & Hhpos). rewrite <- Hw.
    apply SDL_UpdateTexture_total; lia. }
  exists (with_texture t r). apply update_inversion.
  rewrite Hrect. cbn [SDL_Rect.w]. split; [exact Hpitch|]. split; [reflexivity|].
  exists r. rewrite Hrect in Hr. auto.
Qed.

Lemma run_op_total_well_formed `{Runtime} width height op st :
  well_formed width height (fst st) ->
  (op = OpShade -> is_Some (shaderKernel (fst st))) ->
  (op = OpBlank -> width * height <> 0) ->
  exists st', run_op op st = Returns st'.
Proof.
  destruct st as [t o]. cbn [fst]. intros Hwf Hk Hpx.
  destruct op; cbn [run_op fst snd]; try (eexists; reflexivity).
  - eexists. apply blank_Returns. split; [|split; reflexivity].
    destruct Hwf as (_ & _ & _ & Hlen & _). specialize (Hpx eq_refl).
    intros Hnil. rewrite Hnil in Hlen. cbn in Hlen. lia.
  - destruct (Hk eq_refl) as [kernel Hkernel].
    apply (shade_total t o kernel Hkernel).
    destruct Hwf as (Hrect & Hwh & _). rewrite Hrect. exact Hwh.
  - destruct (update_total_well_formed width height t o Hwf) as [t' Ht']. eauto.
Qed.

(** ** What the member functions touch *)

(** Which call leaves which part of the state as it is. *)
Lemma run_op_footprint `{Runtime} (op : Op) (st st' : SDL_ShaderTexture * OCL) :
  run_op op st = Returns st' ->
  (op <> OpShade -> snd st' = snd st) /\
  (op <> OpUpdate -> (forall blend, op <> OpSetBlendMode blend) ->
   texture (fst st') = texture (fst st)) /\
  (op <> OpShade -> op <> OpBlank -> pixels (fst st') = pixels (fst st)) /\
  ((forall name, op <> OpSetShader name) ->
   shaderKernel (fst st') = shaderKernel (fst st) /\ shader (fst st') = shader (fst st)).
Proof.
  destruct st as [t o], st' as [t' o']. destruct op; cbn [run_op fst snd]; intros Hop.
  - apply blank_Returns in Hop as (_ & -> & ->). cbn. repeat split; congruence.
  - apply shade_inversion in Hop as (k & _ & _ & _ & _ & _ & -> & _). cbn.
    repeat split; congruence.
  - apply update_inversion in Hop as (_ & -> & tex & _ & ->). cbn. repeat split; congruence.
  - injection Hop as <- <-. cbn. split; [reflexivity|].
    split; [intros _ Hb; now destruct (Hb blend)|]. repeat split; congruence.
  - injection Hop as <- <-. cbn. split; [reflexivity|]. split; [reflexivity|].
    split; [reflexivity|]. intros Hn. now destruct (Hn shader0).
Qed.

(** X6: of the five member functions only [shade] changes the [OCL]
    object (its queue and device memory); only [update] and
    [setBlendMode] change the SDL texture, so a shaded or blanked pixel
    array shows in the texture only after [update]; only [shade] and
    [blank] change the pixel array; only [setShader] changes the kernel
    and the shader name. *)
Theorem member_function_footprint `{Runtime} (t t' : SDL_ShaderTexture) (o o' : OCL) :
  (blank t o = Returns (t', o') ->
   o' = o /\ texture t' = texture t /\
   shaderKernel t' = shaderKernel t /\ shader t' = shader t) /\
  (shade t o = Returns (t', o') ->
   texture t' = texture t /\ shaderKernel t' = shaderKernel t /\ shader t' = shader t) /\
  (update t o = Returns (t', o') ->
   o' = o /\ pixels t' = pixels t /\
   shaderKernel t' = shaderKernel t /\ shader t' = shader t) /\
  (forall blend, setBlendMode blend t o = Returns (t', o') ->
   o' = o /\ pixels t' = pixels t /\
   shaderKernel t' = shaderKernel t /\ shader t' = shader t) /\
  (forall name, setShader name t o = Returns (t', o') ->
   o' = o /\ texture t' = texture t /\ pixels t' = pixels t).
Proof.
  split; [|split; [|split; [|split]]].
  - intros Hop. destruct (run_op_footprint OpBlank (t, o) (t', o') Hop) as (Ho & Ht & _ & Hk).
    destruct Hk as [Hk Hs]; [discriminate|].
    split; [now apply Ho|]. split; [apply Ht; discriminate|]. auto.
  - intros Hop. destruct (run_op_footprint OpShade (t, o) (t', o') Hop) as (_ & Ht & _ & Hk).
    destruct Hk as [Hk Hs]; [discriminate|].
    split; [apply Ht; discriminate|]. auto.
  - intros Hop. destruct (run_op_footprint OpUpdate (t, o) (t', o') Hop) as (Ho & _ & Hp & Hk).
    destruct Hk as [Hk Hs]; [discriminate|].
    split; [now apply Ho|]. split; [apply Hp; discriminate|]. auto.
  - intros blend Hop.
    destruct (run_op_footprint (OpSetBlendMode blend) (t, o) (t', o') Hop)
      as (Ho & _ & Hp & Hk).
    destruct Hk as [Hk Hs]; [discriminate|].
    split; [now apply Ho|]. split; [apply Hp; discriminate|]. auto.
  - intros name Hop.
    destruct (run_op_footprint (OpSetShader name) (t, o) (t', o') Hop) as (Ho & Ht & Hp & _).
    split; [now apply Ho|]. split; [apply Ht; discriminate|]. apply Hp; discriminate.
Qed.

Lemma member_function_footprint_witness :
  exists t' o',
    shade (H := example_runtime) example_texture example_ocl = Returns (t', o') /\
    texture t' = texture example_texture /\
    shaderKernel t' = shaderKernel example_texture /\
    pixels t' <> pixels example_texture.
Proof.
  destruct (shade (H := example_runtime) example_texture example_ocl)
    as [[t' o']| | |] eqn:Hop; [|vm_compute in Hop; discriminate Hop..].
  destruct (member_function_footprint (H := example_runtime)
              example_texture t' example_ocl o') as (_ & Hshade & _).
  destruct (Hshade Hop) as (Htex & Hk & _).
  exists t', o'. split; [reflexivity|]. split; [exact Htex|]. split; [exact Hk|].
  vm_compute in Hop. injection Hop as <- _. vm_compute. discriminate.
Defined.

(** ** When a sequence of calls is defined *)

Lemma run_ops_step `{Runtime} op ops st st1 :
  run_op op st = Returns st1 -> run_ops (op :: ops) st = run_ops ops st1.
Proof. intros Hop. cbn [run_ops]. now rewrite Hop. Qed.

Lemma run_ops_total_with_kernel `{Runtime} width height ops : forall st,
  well_formed width height (fst st) ->
  is_Some (shaderKernel (fst st)) ->
  width * height <> 0 \/ without_blank ops = true ->
  exists st', run_ops ops st = Returns st'.
Proof.
  induction ops as [|op ops IH]; intros st Hwf Hk Hpx; [eexists; reflexivity|].
  destruct (run_op_total_well_formed width height op st Hwf (fun _ => Hk)) as [st1 H1].
  { intros ->. destruct Hpx as [Hpx|Hpx]; [exact Hpx|discriminate Hpx]. }
  rewrite (run_ops_step _ _ _ _ H1). apply IH.
  - eapply run_op_well_formed; eassumption.
  - eapply run_op_kernel; [exact H1|now left].
  - destruct Hpx as [Hpx|Hpx]; [now left|right]. destruct op; (exact Hpx || discriminate Hpx).
Qed.

Lemma run_ops_total_without_kernel `{Runtime} width height ops : forall st,
  well_formed width height (fst st) ->
  shade_after_setShader ops = true ->
  width * height <> 0 \/ without_blank ops = true ->
  exists st', run_ops ops st = Returns st'.
Proof.
  induction ops as [|op ops IH]; intros st Hwf Hs Hpx; [eexists; reflexivity|].
  destruct op; cbn [shade_after_setShader] in Hs; try discriminate Hs.
  1, 2, 3:
    (match goal with
     | |- context [run_ops (?op :: _) _] =>
         destruct (run_op_total_well_formed width height op st Hwf ltac:(discriminate))
           as [st1 H1];
         [intros Hop;
          first [discriminate Hop
                |destruct Hpx as [Hpx|Hpx]; [exact Hpx|discriminate Hpx]]|];
         rewrite (run_ops_step _ _ _ _ H1);
         apply IH;
         [eapply run_op_well_formed; eassumption|exact Hs|];
         destruct Hpx as [Hpx|Hpx]; [now left|right; first [exact Hpx|discriminate Hpx]]
     end).
  destruct (run_op_total_well_formed width height (OpSetShader shader0) st Hwf
              ltac:(discriminate) ltac:(discriminate)) as [st1 H1].
  rewrite (run_ops_step _ _ _ _ H1).
  apply (run_ops_total_with_kernel width height).
  - eapply run_op_well_formed; eassumption.
  - eapply run_op_kernel; [exact H1|right; eauto].
  - destruct Hpx as [Hpx|Hpx]; [now left|right; exact Hpx].
Qed.

Lemma run_ops_Returns_shade_after_setShader `{Runtime} ops : forall st st',
  shaderKernel (fst st) = None ->
  run_ops ops st = Returns st' ->
  shade_after_setShader ops = true.
Proof.
  induction ops as [|op ops IH]; intros st st' Hk Hr; [reflexivity|].
  apply run_ops_cons in Hr as (st1 & H1 & Hr).
  destruct op; cbn [shade_after_setShader]; try reflexivity.
  2: { cbn [run_op] in H1. rewrite shade_no_kernel in H1 by assumption. discriminate. }
  all: apply (IH st1 st'); [|exact Hr];
    destruct (run_op_footprint _ _ _ H1) as (_ & _ & _ & Hsame);
    destruct Hsame as [-> _]; [intros name; discriminate|exact Hk].
Qed.

Lemma run_ops_Returns_without_blank `{Runtime} ops : forall st st',
  pixels (fst st) = [] ->
  run_ops ops st = Returns st' ->
  without_blank ops = true.
Proof.
  induction ops as [|op ops IH]; intros st st' Hpx Hr; [reflexivity|].
  apply run_ops_cons in Hr as (st1 & H1 & Hr).
  assert (pixels (fst st1) = []) as Hpx1.
  { apply run_op_frame in H1 as (_ & _ & Hlen & _). rewrite Hpx in Hlen.
    now apply length_zero_iff_nil. }
  destruct op; cbn [without_blank]; try (apply (IH st1 st' Hpx1 Hr)).
  cbn [run_op] in H1. rewrite blank_empty in H1 by assumption. discriminate.
Qed.

(** X7: on a constructed texture a sequence of member-function calls is
    defined and returns exactly when no [shade] comes before the first
    [setShader] and, for a texture without pixels ([width * height] is
    0), there is no [blank]; otherwise its behaviour is undefined. In
    particular [update] never reads outside the pixel array. *)
Theorem run_ops_defined_iff `{Runtime} (renderer : SDL_Renderer) (o : OCL) (width height : Z)
    (t : SDL_ShaderTexture) (o' : OCL) (ops : list Op) :
  SDL_ShaderTexture_ctor renderer o width height = Returns (t, o') ->
  ((exists st', run_ops ops (t, o') = Returns st') <->
   shade_after_setShader ops = true /\
   (width * height = 0 -> without_blank ops = true)) /\
  (shade_after_setShader ops = false \/ (width * height = 0 /\ without_blank ops = false) ->
   run_ops ops (t, o') = Undefined).
Proof.
  intros Hc. pose proof (SDL_ShaderTexture_ctor_well_formed _ _ _ _ _ _ Hc) as Hwf.
  apply SDL_ShaderTexture_ctor_inversion in Hc as (_ & _ & _ & _ & Hpx & _ & _ & Hk & _).
  assert ((exists st', run_ops ops (t, o') = Returns st') ->
          shade_after_setShader ops = true /\
          (width * height = 0 -> without_blank ops = true)) as Hnec.
  { intros [st' Hr]. split.
    - apply (run_ops_Returns_shade_after_setShader ops (t, o') st' Hk Hr).
    - intros H0. apply (run_ops_Returns_without_blank ops (t, o') st'); [|exact Hr].
      cbn [fst]. rewrite Hpx. replace (width * height * 4) with 0 by lia. reflexivity. }
  split; [split; [exact Hnec|]|].
  - intros [Hs Hb]. apply (run_ops_total_without_kernel width height ops (t, o') Hwf Hs).
    destruct (decide (width * height = 0)) as [H0|Hne]; [right; now apply Hb|now left].
  - intros Hbad.
    destruct (run_ops_Returns_or_Undefined ops (t, o')) as [Hret|Hu]; [|exact Hu].
    destruct (Hnec Hret) as [Hs Hb].
    destruct Hbad as [Hbad|[H0 Hbad]]; [congruence|]. rewrite (Hb H0) in Hbad. discriminate.
Qed.

Lemma run_ops_defined_iff_witness :
  (exists st',
     run_ops (H := example_runtime)
       [OpUpdate; OpBlank; OpSetShader "fill"; OpShade; OpUpdate; OpShade]
       (example_texture0, example_ocl) = Returns st') /\
  run_ops (H := example_runtime) [OpBlank; OpShade; OpSetShader "fill"]
    (example_texture0, example_ocl) = Undefined.
Proof.
  assert (SDL_ShaderTexture_ctor example_renderer example_ocl0 2 1
          = Returns (example_texture0, example_ocl)) as Hc by (vm_compute; reflexivity).
  split.
  - apply (proj1 (run_ops_defined_iff (H := example_runtime) _ _ _ _ _ _ _ Hc)).
    split; [reflexivity|]. intros H0. discriminate H0.
  - apply (proj2 (run_ops_defined_iff (H := example_runtime) _ _ _ _ _ _ _ Hc)).
    left. reflexivity.
Defined.

(** ** The queue between calls *)

Lemma run_op_queue `{Runtime} op st st' :
  run_op op st = Returns st' ->
  (pending (queue (snd st)) = [] -> pending (queue (snd st')) = []) /\
  length (history (queue (snd st')))
  = (length (history (queue (snd st))) + 4 * count_shade [op])%nat.
Proof.
  intros Hop. pose proof (run_op_footprint _ _ _ Hop) as (Hsame & _).
  destruct op; try (rewrite Hsame by discriminate; split; [auto|cbn; lia]).
  destruct st as [t o], st' as [t' o']. cbn [run_op fst snd] in *.
  apply shade_inversion in Hop as (k & _ & _ & Hh & Hp & _).
  split; [intros _; exact Hp|]. rewrite Hh, length_app. reflexivity.
Qed.

(** X8: between member-function calls the queue holds no command that
    is still to be waited for, and its history has exactly four calls
    for every [shade] made since the [OCL] object was constructed. *)
Theorem queue_idle_between_calls `{Runtime} (kernelFiles : list string) (out : string) (o : OCL)
    (renderer : SDL_Renderer) (width height : Z) (t : SDL_ShaderTexture) (o' : OCL)
    (ops : list Op) (st' : SDL_ShaderTexture * OCL) :
  OCL_ctor kernelFiles = (out, Returns o) ->
  SDL_ShaderTexture_ctor renderer o width height = Returns (t, o') ->
  run_ops ops (t, o') = Returns st' ->
  pending (queue (snd st')) = [] /\
  length (history (queue (snd st'))) = (4 * count_shade ops)%nat.
Proof.
  intros Ho Hc Hr.
  assert (pending (queue o') = [] /\ length (history (queue o')) = 0%nat) as [Hp Hh].
  { apply SDL_ShaderTexture_ctor_inversion in Hc
      as (_ & _ & _ & _ & _ & _ & _ & _ & _ & _ & -> & _).
    apply OCL_ctor_Returns in Ho as (_ & _ & ->). split; reflexivity. }
  change o' with (snd (t, o')) in Hp, Hh. revert Hp Hh Hr.
  generalize (t, o'). clear. intros st Hp Hh Hr.
  assert (pending (queue (snd st')) = [] /\
          length (history (queue (snd st')))
          = (length (history (queue (snd st))) + 4 * count_shade ops)%nat) as [Hp' Hh'].
  { clear Hh. revert st Hp Hr. induction ops as [|op ops IH]; intros st Hp Hr.
    - injection Hr as <-. split; [exact Hp|cbn; lia].
    - apply run_ops_cons in Hr as (st1 & H1 & Hr).
      destruct (run_op_queue _ _ _ H1) as [Hp1 Hh1].
      destruct (IH st1 (Hp1 Hp) Hr) as [Hp' Hh'].
      split; [exact Hp'|]. rewrite Hh', Hh1. destruct op; cbn; lia. }
  split; [exact Hp'|]. rewrite Hh', Hh. reflexivity.
Qed.

Lemma queue_idle_between_calls_witness :
  exists st',
    run_ops (H := example_runtime) [OpSetShader "fill"; OpShade; OpBlank; OpShade; OpUpdate]
      (example_texture0, example_ocl) = Returns st' /\
    pending (queue (snd st')) = [] /\
    length (history (queue (snd st'))) = 8%nat.
Proof.
  destruct (run_ops (H := example_runtime)
              [OpSetShader "fill"; OpShade; OpBlank; OpShade; OpUpdate]
              (example_texture0, example_ocl)) as [st'| | |] eqn:Hr;
    [|vm_compute in Hr; discriminate Hr..].
  exists st'. split; [reflexivity|].
  apply (queue_idle_between_calls (H := example_runtime) ["fill.cl"] EmptyString example_ocl0
           example_renderer 2 1 example_texture0 example_ocl
           [OpSetShader "fill"; OpShade; OpBlank; OpShade; OpUpdate] st').
  - vm_compute. reflexivity.
  - vm_compute. reflexivity.
  - exact Hr.
Defined.

(** ** Edges of the constructor *)

Lemma with_texture_same t : with_texture t (texture t) = t.
Proof. destruct t. reflexivity. Qed.

(** X9: with a width or a height that is not positive the constructor,
    when it returns, has made no SDL texture (the pointer is null) and
    noticed nothing; the pixel array still has [width * height * 4]
    bytes, and [update] and [setBlendMode] then do nothing at all. *)
Theorem ctor_without_texture (renderer : SDL_Renderer) (o : OCL) (width height : Z)
    (t : SDL_ShaderTexture) (o' : OCL) :
  width <= 0 \/ height <= 0 ->
  SDL_ShaderTexture_ctor renderer o width height = Returns (t, o') ->
  texture t = None /\
  Z.of_nat (length (pixels t)) = width * height * 4 /\
  update t o' = Returns (t, o') /\
  forall blend, setBlendMode blend t o' = Returns (t, o').
Proof.
  intros Hdim Hc.
  pose proof (SDL_ShaderTexture_ctor_well_formed _ _ _ _ _ _ Hc) as (Hrect & _ & Hin & Hlen & Htex).
  assert (texture t = None) as Hnone.
  { destruct (texture t) as [tex|]; [|reflexivity]. lia. }
  split; [exact Hnone|]. split; [exact Hlen|]. split.
  - apply update_inversion. rewrite Hrect. cbn [SDL_Rect.w].
    split; [exact Hin|]. split; [reflexivity|]. exists None.
    rewrite Hnone. split; [reflexivity|]. rewrite <- Hnone. symmetry. apply with_texture_same.
  - intros blend. unfold setBlendMode. rewrite Hnone. cbn.
    rewrite <- Hnone. now rewrite with_texture_same.
Qed.

Lemma ctor_without_texture_witness :
  exists t o',
    SDL_ShaderTexture_ctor example_renderer example_ocl0 (-2) (-3) = Returns (t, o') /\
    texture t = None /\
    length (pixels t) = 24%nat /\
    update t o' = Returns (t, o').
Proof.
  destruct (SDL_ShaderTexture_ctor example_renderer example_ocl0 (-2) (-3))
    as [[t o']| | |] eqn:Hc; [|vm_compute in Hc; discriminate Hc..].
  destruct (ctor_without_texture example_renderer example_ocl0 (-2) (-3) t o')
    as (Hnone & Hlen & Hu & _); [lia|exact Hc|].
  exists t, o'. split; [reflexivity|]. split; [exact Hnone|]. split; [lia|exact Hu].
Defined.

(** X10: when [width * height * 4] is a negative [int], the constructor
    is left by [std::length_error]: the size converts to a [size_t]
    beyond what a vector can hold. No object is constructed. *)
Theorem ctor_negative_size_throws (renderer : SDL_Renderer) (o : OCL) (width height : Z) :
  in_int (width * height) = true ->
  in_int (width * height * 4) = true ->
  width * height * 4 < 0 ->
  SDL_ShaderTexture_ctor renderer o width height = Throws "std::length_error".
Proof.
  intros Hwh Hn Hneg. unfold SDL_ShaderTexture_ctor.
  rewrite (int_mul_in_int width height), bind_Returns_l by assumption.
  rewrite (int_mul_in_int (width * height) 4), bind_Returns_l by assumption.
  unfold new_vector.
  destruct (Z.ltb_spec VECTOR_MAX_SIZE (to_size_t (width * height * 4))) as [_|Hle];
    [reflexivity|].
  apply to_size_t_vector in Hle; [lia|exact Hn].
Qed.

Lemma ctor_negative_size_throws_witness :
  SDL_ShaderTexture_ctor example_renderer example_ocl0 (-1) 640 = Throws "std::length_error".
Proof. apply ctor_negative_size_throws; [reflexivity|reflexivity|lia]. Defined.

(** ** The texture after [update] *)

Lemma load32_zero (px : list byte) offset :
  Forall (fun b => b = Byte.x00) px ->
  forall p, load32 px offset = Returns p -> p = 0.
Proof.
  intros Hz p. unfold load32. destruct (offset <? 0); [discriminate|].
  destruct (px !! Z.to_nat offset) as [b0|] eqn:E0; [|discriminate].
  destruct (px !! (Z.to_nat offset + 1)%nat) as [b1|] eqn:E1; [|discriminate].
  destruct (px !! (Z.to_nat offset + 2)%nat) as [b2|] eqn:E2; [|discriminate].
  destruct (px !! (Z.to_nat offset + 3)%nat) as [b3|] eqn:E3; [|discriminate].
  rewrite Forall_lookup in Hz.
  rewrite (Hz _ _ E0), (Hz _ _ E1), (Hz _ _ E2), (Hz _ _ E3). intros [= <-]. reflexivity.
Qed.

(** X11: the constructor leaves the texture it made all zero: every
    pixel of the texture is transparent black. *)
Theorem ctor_texture_zero (renderer : SDL_Renderer) (o : OCL) (width height : Z)
    (t : SDL_ShaderTexture) (o' : OCL) (tex : SDL_Texture) :
  SDL_ShaderTexture_ctor renderer o width height = Returns (t, o') ->
  texture t = Some tex ->
  tex_w tex = width /\ tex_h tex = height /\
  forall x y, 0 <= x < width -> 0 <= y < height -> texel tex x y = Some 0.
Proof.
  intros Hc Ht.
  pose proof (SDL_ShaderTexture_ctor_well_formed _ _ _ _ _ _ Hc) as (_ & _ & _ & _ & Hshape).
  rewrite Ht in Hshape. destruct Hshape as (Hw & Hh & Hwpos & Hhpos).
  split; [exact Hw|]. split; [exact Hh|].
  apply SDL_ShaderTexture_ctor_inversion in Hc
    as (_ & _ & _ & _ & Hpx & _ & _ & _ & Htex & _).
  destruct (SDL_CreateTexture _ _ _ _ _) as [tex0|] eqn:Hcreate;
    [|cbn in Htex; congruence].
  apply SDL_CreateTexture_Some in Hcreate as (Hw0 & Hh0 & _).
  assert (width * 4 <> 0) as Hpitch0 by lia.
  apply (SDL_UpdateTexture_Some _ _ _ _ Hpitch0) in Htex as (tex' & Htex' & _ & _ & Htexel).
  assert (tex' = tex) as -> by congruence.
  intros x y Hx Hy. destruct (Htexel x y) as (p & Hp & Hload); [lia|lia|].
  rewrite Hp. f_equal. eapply load32_zero; [|exact Hload].
  rewrite Hpx. apply Forall_replicate. reflexivity.
Qed.

Lemma ctor_texture_zero_witness :
  texel {| tex_format := SDL_PIXELFORMAT_ARGB8888; tex_access := SDL_TEXTUREACCESS_STREAMING;
           tex_w := 2; tex_h := 1; tex_rows := Some [[0; 0]]; tex_blend := None |} 1 0
  = Some 0.
Proof.
  refine (proj2 (proj2 (ctor_texture_zero example_renderer example_ocl0 2 1
                          example_texture0 example_ocl _ _ _)) 1 0 _ _);
    [vm_compute; reflexivity|reflexivity|lia|lia].
Defined.

(** X12: on a constructed texture that has an SDL texture, after any
    sequence of calls, [blank] followed by [update] clears the SDL
    texture: both return and every pixel of the texture is 0. ([blank]
    alone leaves the texture as it was.) *)
Theorem blank_update_clears_texture `{Runtime} (renderer : SDL_Renderer) (o : OCL)
    (width height : Z) (t : SDL_ShaderTexture) (o' : OCL) (ops : list Op)
    (st : SDL_ShaderTexture * OCL) (tex : SDL_Texture) :
  SDL_ShaderTexture_ctor renderer o width height = Returns (t, o') ->
  run_ops ops (t, o') = Returns st ->
  texture (fst st) = Some tex ->
  exists t1 t2 tex2,
    blank (fst st) (snd st) = Returns (t1, snd st) /\
    texture t1 = Some tex /\
    update t1 (snd st) = Returns (t2, snd st) /\
    texture t2 = Some tex2 /\
    forall x y, 0 <= x < width -> 0 <= y < height -> texel tex2 x y = Some 0.
Proof.
  intros Hc Hr Htex.
  pose proof (SDL_ShaderTexture_ctor_well_formed _ _ _ _ _ _ Hc) as Hwf.
  apply (run_ops_well_formed width height ops _ _ Hr) in Hwf.
  destruct st as [t0 o0]. cbn [fst snd] in *.
  assert (0 < width /\ 0 < height) as [Hwpos Hhpos].
  { destruct Hwf as (_ & _ & _ & _ & Hshape). rewrite Htex in Hshape. tauto. }
  destruct (run_op_total_well_formed width height OpBlank (t0, o0) Hwf
              ltac:(discriminate) ltac:(intros _; nia)) as [[t1 o1] Hb].
  cbn [run_op fst snd] in Hb.
  assert (well_formed width height t1) as Hwf1.
  { apply (run_op_well_formed width height OpBlank (t0, o0) (t1, o1)); [exact Hb|exact Hwf]. }
  apply blank_Returns in Hb as (Hne & Ht1 & ->).
  destruct (update_total_well_formed width height t1 o0 Hwf1) as [t2 Hu].
  assert (texture t1 = Some tex) as Htex1 by (rewrite Ht1; exact Htex).
  pose proof Hu as Hu'.
  apply update_inversion in Hu' as (_ & _ & r & Hr2 & Ht2).
  destruct Hwf1 as (Hrect & _ & _ & _ & _).
  rewrite Htex1, Hrect in Hr2. cbn [SDL_Rect.w] in Hr2.
  assert (width * 4 <> 0) as Hpitch0 by lia.
  apply (SDL_UpdateTexture_Some _ _ _ _ Hpitch0) in Hr2 as (tex2 & -> & Hw2 & Hh2 & Htexel).
  exists t1, t2, tex2.
  split; [apply blank_Returns; auto|]. split; [exact Htex1|]. split; [exact Hu|].
  split; [rewrite Ht2; reflexivity|].
  intros x y Hx Hy.
  assert (tex_w tex = width /\ tex_h tex = height) as [Hw Hh].
  { destruct Hwf as (_ & _ & _ & _ & Hshape). rewrite Htex in Hshape. tauto. }
  destruct (Htexel x y) as (p & Hp & Hload); [lia|lia|].
  rewrite Hp. f_equal. eapply load32_zero; [|exact Hload].
  rewrite Ht1. cbn [with_pixels pixels]. apply Forall_replicate. reflexivity.
Qed.

Lemma blank_update_clears_texture_witness :
  exists st tex st2 tex2,
    run_ops (H := example_runtime) [OpSetShader "fill"; OpShade; OpUpdate]
      (example_texture0, example_ocl) = Returns st /\
    texture (fst st) = Some tex /\
    texel tex 1 0 = Some 4294967295 /\
    run_ops (H := example_runtime) [OpBlank; OpUpdate] st = Returns st2 /\
    texture (fst st2) = Some tex2 /\
    texel tex2 1 0 = Some 0.
Proof.
  destruct (run_ops (H := example_runtime) [OpSetShader "fill"; OpShade; OpUpdate]
              (example_texture0, example_ocl)) as [st| | |] eqn:Hr;
    [|vm_compute in Hr; discriminate Hr..].
  assert (exists tex, texture (fst st) = Some tex /\ texel tex 1 0 = Some 4294967295)
    as (tex & Htex & Hff).
  { vm_compute in Hr. injection Hr as <-. eexists. split; reflexivity. }
  destruct (blank_update_clears_texture (H := example_runtime) example_renderer example_ocl0 2 1
              example_texture0 example_ocl _ st tex ltac:(vm_compute; reflexivity) Hr Htex)
    as (t1 & t2 & tex2 & Hb & _ & Hu & Ht2 & Hzero).
  exists st, tex, (t2, snd st), tex2. split; [reflexivity|]. split; [exact Htex|].
  split; [exact Hff|]. split.
  - cbn [run_ops run_op]. rewrite Hb. cbn [mbind outcome_bind fst snd]. rewrite Hu. reflexivity.
  - split; [exact Ht2|]. apply Hzero; lia.
Defined.

(** X13: [update] is idempotent: a second [update] right after one that
    returned returns the same state. *)
Theorem update_idempotent (t t1 : SDL_ShaderTexture) (o o1 : OCL) :
  update t o = Returns (t1, o1) ->
  update t1 o1 = Returns (t1, o1).
Proof.
  intros Hu. apply update_inversion in Hu as (Hin & -> & r & Hr & ->).
  apply update_inversion. cbn [with_texture rect pixels texture].
  split; [exact Hin|]. split; [reflexivity|]. exists r. split; [|reflexivity].
  destruct (texture t) as [tex|]; [|cbn in Hr; injection Hr as <-; reflexivity].
  unfold SDL_UpdateTexture in *.
  destruct (SDL_Rect.w (rect t) * 4 =? 0); [injection Hr as <-; reflexivity|].
  apply bind_Returns in Hr as (rows & Hrows & [= <-]). cbn [tex_w tex_h].
  rewrite Hrows. reflexivity.
Qed.

Lemma update_idempotent_witness :
  exists t1,
    update example_texture example_ocl = Returns (t1, example_ocl) /\
    update t1 example_ocl = Returns (t1, example_ocl).
Proof.
  eexists. split; [vm_compute; reflexivity|].
  apply (update_idempotent example_texture _ example_ocl). vm_compute. reflexivity.
Defined.

(** ** [shade] and the device buffer *)

Lemma load_pointwise (buffer : cl_mem) (mem : DeviceMemory) (data : list byte) :
  (forall i x, data !! i = Some x -> mem buffer i = x) ->
  load buffer 0 (Z.of_nat (length data)) mem = data.
Proof.
  intros Hmem. apply list_eq. intros i. unfold load.
  rewrite list_lookup_fmap, Nat2Z.id.
  destruct (data !! i) as [x|] eqn:Hx.
  - rewrite lookup_seq_lt by (eapply lookup_lt_Some; exact Hx). cbn.
    f_equal. now apply Hmem.
  - rewrite lookup_seq_ge; [reflexivity|]. now apply lookup_ge_None.
Qed.

Lemma store_lookup (buffer : cl_mem) (data : list byte) (mem : DeviceMemory) i x :
  data !! i = Some x -> store buffer 0 data mem buffer i = x.
Proof.
  intros Hx. unfold store. pose proof (lookup_lt_Some _ _ _ Hx) as Hlt.
  destruct (decide _) as [_|Hn]; [|exfalso; apply Hn; split; [reflexivity|lia]].
  replace (Z.to_nat (Z.of_nat i - 0)) with i by lia. now rewrite Hx.
Qed.

(** X14: upload and download are a round trip: when the kernel writes
    nothing into the bytes of the pixel buffer that hold the pixel array,
    [shade] returns the texture object exactly as it was. *)
Theorem shade_round_trip `{Runtime} (t : SDL_ShaderTexture) (o : OCL) (kernel : Kernel) :
  shaderKernel t = Some kernel ->
  in_int (SDL_Rect.w (rect t) * SDL_Rect.h (rect t)) = true ->
  (forall mem i,
     (i < length (pixels t))%nat ->
     kernel_effect kernel NullRange
       (NDRange1 (to_size_t (SDL_Rect.w (rect t) * SDL_Rect.h (rect t)))) NullRange mem
       (buf_mem (pixelBuffer t)) i
     = mem (buf_mem (pixelBuffer t)) i) ->
  exists o', shade t o = Returns (t, o').
Proof.
  intros Hk Hin Hidle.
  destruct (shade_total t o kernel Hk Hin) as [[t' o'] Hs].
  exists o'. rewrite Hs. f_equal. f_equal.
  apply shade_inversion in Hs as (k & Hk' & _ & _ & _ & Hmem & -> & _).
  assert (k = kernel) as -> by congruence.
  unfold sizeof_uchar. rewrite Z.mul_1_l, Hmem, load_pointwise.
  - destruct t. reflexivity.
  - intros i x Hx. rewrite Hidle by (eapply lookup_lt_Some; exact Hx).
    now apply store_lookup.
Qed.

Lemma shade_round_trip_witness :
  exists o', shade (H := idle_runtime) example_texture example_ocl
             = Returns (example_texture, o').
Proof.
  apply (shade_round_trip (H := idle_runtime) example_texture example_ocl example_kernel);
    [reflexivity|reflexivity|].
  intros mem i _. reflexivity.
Defined.

(** X15: on a constructed texture, after any sequence of calls, the
    upload and the download of [shade] start at offset 0 of the pixel
    buffer and have exactly the size the buffer was created with: no
    transfer reaches outside the buffer or leaves a part of it out. *)
Theorem shade_transfers_whole_buffer `{Runtime} (renderer : SDL_Renderer) (o : OCL)
    (width height : Z) (t : SDL_ShaderTexture) (o' : OCL) (ops : list Op)
    (st : SDL_ShaderTexture * OCL) (t2 : SDL_ShaderTexture) (o2 : OCL) :
  SDL_ShaderTexture_ctor renderer o width height = Returns (t, o') ->
  run_ops ops (t, o') = Returns st ->
  shade (fst st) (snd st) = Returns (t2, o2) ->
  exists kernel items waiting,
    history (queue o2) = history (queue (snd st)) ++
      [ {| call := EnqueueWriteBuffer (pixelBuffer t) CL_TRUE 0 (buf_size (pixelBuffer t))
                     (pixels (fst st));
           pending_at_return := [] |};
        {| call := EnqueueNDRangeKernel kernel NullRange items NullRange;
           pending_at_return := waiting |};
        {| call := Finish; pending_at_return := [] |};
        {| call := EnqueueReadBuffer (pixelBuffer t) CL_TRUE 0 (buf_size (pixelBuffer t));
           pending_at_return := [] |} ] /\
    buf_size (pixelBuffer t) = width * height * 4 /\
    Z.of_nat (length (pixels (fst st))) = buf_size (pixelBuffer t).
Proof.
  intros Hc Hr Hs.
  pose proof (SDL_ShaderTexture_ctor_well_formed _ _ _ _ _ _ Hc) as Hwf.
  apply (run_ops_well_formed width height ops _ _ Hr) in Hwf.
  destruct Hwf as (_ & _ & _ & Hlen & _).
  apply SDL_ShaderTexture_ctor_inversion in Hc as (_ & _ & _ & _ & Hpx & _ & Hbuf & _).
  apply run_ops_frame in Hr as (_ & Hb & Hl & _). cbn [fst] in Hb, Hl.
  assert (buf_size (pixelBuffer t) = Z.of_nat (length (pixels (fst st)))) as Hsize.
  { rewrite Hbuf. cbn [buf_size]. unfold sizeof_uchar. rewrite Hl. lia. }
  apply shade_inversion in Hs as (kernel & _ & _ & Hh & _).
  eexists kernel, _, _. split; [|split; [lia|lia]].
  rewrite Hh, Hb, Hsize. unfold sizeof_uchar. rewrite Z.mul_1_l. reflexivity.
Qed.

Lemma shade_transfers_whole_buffer_witness :
  exists st t2 o2,
    run_ops (H := example_runtime) [OpSetShader "fill"; OpShade; OpBlank]
      (example_texture0, example_ocl) = Returns st /\
    shade (H := example_runtime) (fst st) (snd st) = Returns (t2, o2) /\
    buf_size (pixelBuffer example_texture0) = 8 /\
    length (history (queue o2)) = 8%nat.
Proof.
  destruct (run_ops (H := example_runtime) [OpSetShader "fill"; OpShade; OpBlank]
              (example_texture0, example_ocl)) as [st| | |] eqn:Hr;
    [|vm_compute in Hr; discriminate Hr..].
  destruct (shade (H := example_runtime) (fst st) (snd st)) as [[t2 o2]| | |] eqn:Hs;
    [|vm_compute in Hr; injection Hr as <-; vm_compute in Hs; discriminate Hs..].
  destruct (shade_transfers_whole_buffer (H := example_runtime) example_renderer example_ocl0
              2 1 example_texture0 example_ocl _ st t2 o2
              ltac:(vm_compute; reflexivity) Hr Hs) as (k & items & waiting & Hh & Hsize & _).
  exists st, t2, o2. split; [reflexivity|]. split; [exact Hs|]. split; [lia|].
  rewrite Hh, length_app. vm_compute in Hr. injection Hr as <-. reflexivity.
Defined.

(** ** [setShader] *)

(** X16: [setShader] starts from a new kernel: whatever was bound on the
    kernel held before, the new kernel has arguments 0, 1 and 2 bound and
    no other, so further arguments have to be given again after every
    [setShader]. *)
Theorem setShader_resets_arguments (name : string) (t : SDL_ShaderTexture) (o : OCL) :
  exists t' kernel,
    setShader name t o = Returns (t', o) /\
    shaderKernel t' = Some kernel /\
    forall i, is_Some (kernel_args kernel !! i) <-> (i < 3)%nat.
Proof.
  eexists _, _. split; [reflexivity|]. split; [reflexivity|]. cbn.
  intros i. split.
  - intros [v Hv].
    destruct (decide (i < 3)%nat) as [|Hge]; [assumption|].
    rewrite !lookup_insert_ne, lookup_empty in Hv by lia. discriminate.
  - intros Hi. destruct i as [|[|[|i]]]; [| | |lia]; simplify_map_eq; eauto.
Qed.

(** ** [OCL::OCL] without a usable device *)

(** X17: the constructor of [OCL] does not notice that no device was
    chosen: when every enumerated device has score 0, or none is
    enumerated, an object that the constructor returns holds the
    default-constructed device handle, and its context was made for that
    handle alone. A device it holds otherwise is an enumerated device of
    score other than 0. *)
Theorem OCL_ctor_null_device `{Runtime} (kernelFiles : list string) (out : string) (o : OCL) :
  OCL_ctor kernelFiles = (out, Returns o) ->
  ctx_devices (context o) = [device o] /\
  ((forall x, x ∈ enumerate platforms -> score x = 0) -> device o = None) /\
  (forall d, device o = Some d -> d ∈ enumerate platforms /\ score d <> 0).
Proof.
  intros Ho. apply OCL_ctor_Returns in Ho as (_ & _ & ->).
  cbn [device context ctx_devices]. split; [reflexivity|].
  destruct (getSemiIdealDevice_scan platforms) as [[Hnone _] | (d & Hd & Hpos & Hfirst)].
  - rewrite Hnone. split; [reflexivity|discriminate].
  - rewrite Hd. split.
    + intros Hall. apply first_highest_elem in Hfirst. specialize (Hall d Hfirst). lia.
    + intros d' [= <-]. split; [now apply first_highest_elem with (l := enumerate platforms)|lia].
Qed.

Lemma OCL_ctor_null_device_witness :
  exists o,
    OCL_ctor (H := deviceless_runtime) ["fill.cl"] = (EmptyString, Returns o) /\
    device o = None /\ ctx_devices (context o) = [None].
Proof.
  eexists. split; [vm_compute; reflexivity|].
  destruct (OCL_ctor_null_device (H := deviceless_runtime) ["fill.cl"] EmptyString _ eq_refl)
    as (Hctx & Hnone & _).
  split; [|exact Hctx].
  apply Hnone. intros x Hx. inversion Hx.
Defined.

(** ** The shape the member functions keep *)

Lemma run_op_texture_is_Some `{Runtime} op st st' :
  run_op op st = Returns st' ->
  is_Some (texture (fst st')) <-> is_Some (texture (fst st)).
Proof.
  destruct st as [t o], st' as [t' o']. destruct op; cbn [run_op fst snd]; intros Hop.
  - apply blank_Returns in Hop as (_ & -> & ->). reflexivity.
  - apply shade_inversion in Hop as (k & _ & _ & _ & _ & _ & -> & _). reflexivity.
  - apply update_inversion in Hop as (_ & _ & r & Hu & ->). cbn [with_texture texture].
    apply SDL_UpdateTexture_shape in Hu.
    destruct (texture t), r; try contradiction; [split; eauto|reflexivity].
  - injection Hop as <- <-. cbn [with_texture texture]. unfold SDL_SetTextureBlendMode.
    apply fmap_is_Some.
  - injection Hop as <- <-. reflexivity.
Qed.

Lemma run_ops_texture_is_Some `{Runtime} ops : forall st st',
  run_ops ops st = Returns st' ->
  is_Some (texture (fst st')) <-> is_Some (texture (fst st)).
Proof.
  induction ops as [|op ops IH]; intros st st' Hr.
  - injection Hr as <-. reflexivity.
  - apply run_ops_cons in Hr as (st1 & H1 & Hr).
    rewrite (IH _ _ Hr). exact (run_op_texture_is_Some op st st1 H1).
Qed.

(** X18: on a constructed texture, after any sequence of calls, the
    rectangle is still [(0, 0, width, height)], the pixel array still has
    [width * height * 4] bytes, that is [height] rows of the pitch
    [rect.w * 4] that [update] passes, and the SDL texture is there
    exactly if the constructor made one, [width] by [height] with both
    positive. *)
Theorem texture_shape_invariant `{Runtime} (renderer : SDL_Renderer) (o : OCL)
    (width height : Z) (t : SDL_ShaderTexture) (o' : OCL) (ops : list Op)
    (st : SDL_ShaderTexture * OCL) :
  SDL_ShaderTexture_ctor renderer o width height = Returns (t, o') ->
  run_ops ops (t, o') = Returns st ->
  rect (fst st) =
    {| SDL_Rect.x := 0; SDL_Rect.y := 0; SDL_Rect.w := width; SDL_Rect.h := height |} /\
  Z.of_nat (length (pixels (fst st))) = height * (SDL_Rect.w (rect (fst st)) * 4) /\
  (forall tex, texture (fst st) = Some tex ->
     tex_w tex = width /\ tex_h tex = height /\ 0 < width /\ 0 < height) /\
  (is_Some (texture (fst st)) <-> is_Some (texture t)).
Proof.
  intros Hc Hr.
  pose proof (SDL_ShaderTexture_ctor_well_formed _ _ _ _ _ _ Hc) as Hwf.
  pose proof (run_ops_well_formed width height ops _ _ Hr Hwf) as (Hrect & _ & _ & Hlen & Hshape).
  split; [exact Hrect|]. rewrite Hrect. cbn [SDL_Rect.w].
  split; [lia|]. split.
  - intros tex Ht. rewrite Ht in Hshape. exact Hshape.
  - apply (run_ops_texture_is_Some ops _ _ Hr).
Qed.

Lemma texture_shape_invariant_witness :
  exists st tex,
    run_ops (H := example_runtime)
      [OpSetBlendMode SDL_BLENDMODE_MOD; OpSetShader "fill"; OpShade; OpUpdate]
      (example_texture0, example_ocl) = Returns st /\
    length (pixels (fst st)) = 8%nat /\
    texture (fst st) = Some tex /\ tex_w tex = 2 /\ tex_h tex = 1.
Proof.
  destruct (run_ops (H := example_runtime)
              [OpSetBlendMode SDL_BLENDMODE_MOD; OpSetShader "fill"; OpShade; OpUpdate]
              (example_texture0, example_ocl)) as [st| | |] eqn:Hr;
    [|vm_compute in Hr; discriminate Hr..].
  destruct (texture_shape_invariant (H := example_runtime) example_renderer example_ocl0 2 1
              example_texture0 example_ocl _ st ltac:(vm_compute; reflexivity) Hr)
    as (Hrect & Hlen & Hshape & Hsome).
  destruct (proj2 Hsome) as [tex Htex]; [eexists; reflexivity|].
  destruct (Hshape tex Htex) as (Hw & Hh & _).
  exists st, tex. split; [reflexivity|]. rewrite Hrect in Hlen. cbn in Hlen.
  split; [lia|]. auto.
Defined.
